(** * cupbearer: backdoor transforms, FGSM attack and task configurations

    A shallow embedding of the numeric and bookkeeping code of the
    repository:

    - [abstractions/custom_transforms.py]: [AddInfoDict],
      [CornerPixelToWhite], [GaussianNoise];
    - [abstractions/data.py]: [to_numpy], [get_transforms];
    - [abstractions/adversarial_examples.py]: [fgsm], [attack],
      [AdversarialExampleDataset];
    - [abstractions/train_base.py]: [ClassificationTrainer.create_functions];
    - [cupbearer/tasks/toy_features.py]: [ToyFeaturesTask].

    Conventions.  Python floats and array entries are embedded as exact
    rationals ([Qc], canonical fractions, with Leibniz equality): every
    statement below is about the arithmetic the code writes down, not about
    the rounding of its float32 evaluation.  Functions of the libraries the
    code calls (the autodiff operator of jax, optax's cross-entropy, the
    optimizer of the training state, the model's forward pass) are section
    variables: the theorems hold for every behaviour of these. *)

From Stdlib Require Import QArith Qcanon ZArith List Lia Lqa.
From stdpp Require Import base numbers option list strings gmap fin_maps.

Local Open Scope Qc_scope.

(** ** Numbers *)

(** A Python [int] used in float arithmetic. *)
Definition Qc_of_nat (n : nat) : Qc := Qc_of_Z (Z.of_nat n).

(** [0.1], the accuracy threshold of [attack], and [8 / 255], the default
    [eps] of [fgsm]. *)
Definition one_tenth : Qc := Q2Qc (1 # 10).
Definition default_eps : Qc := Q2Qc (8 # 255).

(** ** Arrays

    A batch of inputs is a list of examples along axis 0, each example the
    list of its entries.  Logits are a list of rows, one per example. *)

Abbreviation vec := (list Qc).
Abbreviation array := (list (list Qc)).

(** [jnp.sum] and [jnp.mean] over all entries of a one-dimensional array.
    The mean of no entries is [0 / 0], which is [0] in [Qc] (and [nan] for
    floats); the statements below do not rest on it. *)
Definition sum (xs : vec) : Qc := foldr Qcplus 0 xs.
Definition mean (xs : vec) : Qc := sum xs / Qc_of_nat (length xs).

(** [jnp.sign], entry by entry. *)
Definition sign1 (x : Qc) : Qc :=
  match x ?= 0 with
  | Lt => - 1
  | Eq => 0
  | Gt => 1
  end.
Definition sign (a : array) : array := map (map sign1) a.

(** [eps * a] with a scalar [eps]. *)
Definition scale (eps : Qc) (a : array) : array := map (map (Qcmult eps)) a.

(** [a + b] for arrays of one shape. *)
Definition add (a b : array) : array := zip_with (zip_with Qcplus) a b.

(** [jnp.clip(a, lo, hi)]: [minimum(maximum(a, lo), hi)]. *)
Definition Qcmax (x y : Qc) : Qc := if decide (x < y) then y else x.
Definition Qcmin (x y : Qc) : Qc := if decide (y < x) then y else x.
Definition clip1 (lo hi x : Qc) : Qc := Qcmin (Qcmax x lo) hi.
Definition clip (a : array) (lo hi : Qc) : array := map (map (clip1 lo hi)) a.

(** [jnp.concatenate(arrays, axis=0)]; an empty list of arrays is a
    [ValueError]. *)
Definition concatenate (arrays : list array) : option array :=
  match arrays with
  | [] => None
  | _ => Some (concat arrays)
  end.

(** [jax.nn.one_hot(labels, num_classes)]. *)
Definition one_hot1 (num_classes label : nat) : vec :=
  map (fun c => if decide (c = label) then 1 else 0) (seq 0 num_classes).
Definition one_hot (labels : list nat) (num_classes : nat) : array :=
  map (one_hot1 num_classes) labels.

(** [jnp.argmax(row, -1)]: the first index of a largest entry. *)
Fixpoint argmax_from (best : Qc) (besti i : nat) (row : vec) : nat :=
  match row with
  | [] => besti
  | x :: rest =>
      if decide (best < x) then argmax_from x i (S i) rest
      else argmax_from best besti (S i) rest
  end.
Definition argmax (row : vec) : nat :=
  match row with
  | [] => 0%nat
  | x :: rest => argmax_from x 0 1 rest
  end.

(** [jnp.mean(jnp.argmax(logits, -1) == labels)]: the fraction of rows
    whose largest logit is at the label. *)
Definition correct (logits : array) (labels : list nat) : vec :=
  zip_with (fun row l => if decide (argmax row = l) then 1 else 0) logits labels.
Definition accuracy_of (logits : array) (labels : list nat) : Qc :=
  mean (correct logits labels).

(** [logits.shape[-1]]. *)
Definition last_dim (logits : array) : nat :=
  match logits with
  | [] => 0%nat
  | row :: _ => length row
  end.

(** ** [fgsm] and the attack loop ([abstractions/adversarial_examples.py]) *)

(** [cfg] of [attack].  [max_examples] is [None] when the configuration
    leaves it unset. *)
Record config := Config {
  eps : Qc;
  batch_size : nat;
  max_examples : option nat;
}.

(** The statistics written to [adv_examples.json]. *)
Record stats := Stats {
  original_loss : Qc;
  new_loss : Qc;
  new_accuracy : Qc;
  stats_eps : Qc;
  stats_num_examples : nat;
}.

(** The files of [base_run] that [attack] reads or writes:
    [adv_examples.{SUFFIX}], [adv_examples.json] and [adv_examples.pdf]. *)
Record files := Files {
  adv_examples_file : option array;
  adv_examples_json : option stats;
  adv_examples_pdf : bool;
}.

(** The local variables of [attack] that the batch loop updates. *)
Record loop_state := LoopState {
  adv_examples : list array;
  num_examples : nat;
  mean_original_loss : Qc;
  mean_new_loss : Qc;
  mean_new_accuracy : Qc;
}.

(** How a call of [attack] ends. *)
Inductive outcome :=
  | Skipped                       (* the early [return] *)
  | Finished                      (* fell off the end *)
  | RuntimeError (accuracy : Qc)  (* "Attack failed" *)
  | ConcatenateError.             (* [jnp.concatenate] of no arrays *)

Section Attack.

(** [optax.softmax_cross_entropy(logits, labels)]: one loss per row. *)
Variable softmax_cross_entropy : array -> array -> vec.

(** The gradient operator of jax: [grad f x] is the gradient of the
    scalar function [f] at [x], an array of the shape of [x]. *)
Variable grad : (array -> Qc) -> array -> array.

(** [jax.value_and_grad(f)(x)]. *)
Definition value_and_grad (f : array -> Qc) (x : array) : Qc * array :=
  (f x, grad f x).

Definition fgsm (forward_fn : array -> array) (inputs : array)
    (labels : list nat) (eps : Qc) : array * Qc :=
  let loss := fun x =>
    let logits := forward_fn x in
    let one_hot := one_hot labels (last_dim logits) in
    let losses := softmax_cross_entropy logits one_hot in
    mean losses in
  let '(loss, grad) := value_and_grad loss inputs in
  (add inputs (scale eps (sign grad)), loss).

(** [lambda x: model.apply({"params": params}, x)] for the loaded
    parameters. *)
Variable model_apply : array -> array.

(** The type of the [infos] of a batch; the loop does not look at them. *)
Variable infos : Type.
Definition batch : Type := array * list nat * infos.

Variable cfg : config.

(** [cfg.max_examples and num_examples >= cfg.max_examples]: [None] and
    [0] are falsy. *)
Definition max_examples_reached (num_examples : nat) : bool :=
  match max_examples cfg with
  | None | Some O => false
  | Some m => bool_decide (m <= num_examples)%nat
  end.

(** One pass through the body of [for i, batch in enumerate(dataloader)],
    up to the [break] test. *)
Definition attack_body (i : nat) (b : batch) (st : loop_state) : loop_state :=
  let '(inputs, labels, _) := b in
  let '(adv_inputs, original_loss) :=
    fgsm model_apply inputs labels (eps cfg) in
  let adv_inputs := clip adv_inputs 0 1 in
  let adv_examples := adv_examples st ++ [adv_inputs] in
  let num_examples := (num_examples st + length adv_inputs)%nat in
  let new_logits := model_apply adv_inputs in
  let one_hot := one_hot labels (last_dim new_logits) in
  let new_accuracy := accuracy_of new_logits labels in
  let new_loss := mean (softmax_cross_entropy new_logits one_hot) in
  {| adv_examples := adv_examples;
     num_examples := num_examples;
     mean_original_loss :=
       (Qc_of_nat i * mean_original_loss st + original_loss) / (Qc_of_nat i + 1);
     mean_new_loss :=
       (Qc_of_nat i * mean_new_loss st + new_loss) / (Qc_of_nat i + 1);
     mean_new_accuracy :=
       (Qc_of_nat i * mean_new_accuracy st + new_accuracy) / (Qc_of_nat i + 1) |}.

Fixpoint attack_loop (i : nat) (batches : list batch) (st : loop_state)
    : loop_state :=
  match batches with
  | [] => st
  | b :: rest =>
      let st := attack_body i b st in
      if max_examples_reached (num_examples st) then st
      else attack_loop (S i) rest st
  end.

Definition initial_state : loop_state :=
  {| adv_examples := []; num_examples := 0;
     mean_original_loss := 0; mean_new_loss := 0; mean_new_accuracy := 0 |}.

(** [attack(cfg)], given the batches the data loader yields and the files
    of [base_run], with the plotting block at its end taken to run through;
    [attack_with_plot] below has the failure of that block as well. *)
Definition attack (batches : list batch) (fs : files) : outcome * files :=
  match adv_examples_file fs with
  | Some _ => (Skipped, fs)
  | None =>
      let st := attack_loop 0 batches initial_state in
      if decide (one_tenth < mean_new_accuracy st)
      then (RuntimeError (mean_new_accuracy st), fs)
      else
        match concatenate (adv_examples st) with
        | None => (ConcatenateError, fs)
        | Some adv_examples =>
            (Finished,
             {| adv_examples_file := Some adv_examples;
                adv_examples_json :=
                  Some {| original_loss := mean_original_loss st;
                          new_loss := mean_new_loss st;
                          new_accuracy := mean_new_accuracy st;
                          stats_eps := eps cfg;
                          stats_num_examples := num_examples st |};
                adv_examples_pdf := true |})
        end
  end.

(** The loss that [fgsm] differentiates, as a function of the inputs:
    the mean softmax cross-entropy of [forward_fn x] against the one-hot
    labels. *)
Definition fgsm_loss (forward_fn : array -> array) (labels : list nat)
    (x : array) : Qc :=
  mean (softmax_cross_entropy (forward_fn x)
          (one_hot labels (last_dim (forward_fn x)))).

(** The loop body run over every batch of a list, without the [break]. *)
Fixpoint attack_steps (i : nat) (batches : list batch) (st : loop_state)
    : loop_state :=
  match batches with
  | [] => st
  | b :: rest => attack_steps (S i) rest (attack_body i b st)
  end.

(** The per-batch values that the loop averages. *)
Definition adv_inputs_of (b : batch) : array :=
  clip (fst (fgsm model_apply b.1.1 b.1.2 (eps cfg))) 0 1.
Definition original_loss_of (b : batch) : Qc :=
  snd (fgsm model_apply b.1.1 b.1.2 (eps cfg)).
Definition new_loss_of (b : batch) : Qc :=
  let new_logits := model_apply (adv_inputs_of b) in
  mean (softmax_cross_entropy new_logits (one_hot b.1.2 (last_dim new_logits))).
Definition new_accuracy_of (b : batch) : Qc :=
  accuracy_of (model_apply (adv_inputs_of b)) b.1.2.

End Attack.

(** ** [AdversarialExampleDataset] *)

(** Python's [seq[idx]] for an integer index: a negative index counts from
    the end, an index outside the sequence is an [IndexError] ([None]). *)
Definition py_getitem {A} (l : list A) (idx : Z) : option A :=
  let idx := if decide (idx < 0)%Z then (idx + Z.of_nat (length l))%Z else idx in
  if decide (idx < 0)%Z then None else l !! Z.to_nat idx.

Inductive dataset_error :=
  | FileNotFoundError
  | CalledProcessError
  | ValueError (stored : nat) (requested : Z)
  | IndexError (idx : Z).

Record AdversarialExampleDataset := Dataset {
  examples : array;
  ds_num_examples : Z;
}.

Section Dataset.

(** [subprocess.run(["python", "-m", "abstractions.adversarial_examples",
    ...], check=True)]: the files it leaves, or [None] for a non-zero
    exit status. *)
Variable run_attack : files -> option files.

(** [utils.load(base_run / "adv_examples")]. *)
Definition load_adv_examples (fs : files) : dataset_error + array :=
  match adv_examples_file fs with
  | Some a => inr a
  | None => inl FileNotFoundError
  end.

(** The [try] ... [except FileNotFoundError] block of [__init__]. *)
Definition load_or_attack (fs : files) : (dataset_error + array) * files :=
  match load_adv_examples fs with
  | inr a => (inr a, fs)
  | inl _ =>
      match run_attack fs with
      | None => (inl CalledProcessError, fs)
      | Some fs' => (load_adv_examples fs', fs')
      end
  end.

(** [AdversarialExampleDataset(base_run, num_examples)]. *)
Definition dataset_init (fs : files) (num_examples : option Z)
    : (dataset_error + AdversarialExampleDataset) * files :=
  match load_or_attack fs with
  | (inl e, fs) => (inl e, fs)
  | (inr examples, fs) =>
      let num_examples :=
        match num_examples with
        | None => Z.of_nat (length examples)
        | Some n => n
        end in
      if decide (Z.of_nat (length examples) < num_examples)%Z
      then (inl (ValueError (length examples) num_examples), fs)
      else (inr {| examples := examples; ds_num_examples := num_examples |}, fs)
  end.

End Dataset.

Definition dataset_len (self : AdversarialExampleDataset) : Z :=
  ds_num_examples self.

(** The builtin [len(dataset)]: Python rejects a negative [__len__]. *)
Definition py_len (self : AdversarialExampleDataset) : option Z :=
  if decide (dataset_len self < 0)%Z then None else Some (dataset_len self).

Definition dataset_getitem (self : AdversarialExampleDataset) (idx : Z)
    : dataset_error + vec :=
  if decide (ds_num_examples self <= idx)%Z then inl (IndexError idx)
  else
    match py_getitem (examples self) idx with
    | Some x => inr x
    | None => inl (IndexError idx)
    end.

(** ** Sample transforms ([abstractions/custom_transforms.py]) *)

(** A single-band PIL image: [size] is [(width, height)], [pixels] maps
    [(x, y)] to the stored value; a position without an entry reads 0. *)
Record Image := MkImage {
  size : Z * Z;
  pixels : gmap (Z * Z) Z;
}.

Definition getpixel (img : Image) (xy : Z * Z) : Z :=
  default 0%Z (pixels img !! xy).

(** [img.putpixel(xy, value)]: a negative coordinate counts from the far
    edge, a position outside the image is an [IndexError] ([None]). *)
Definition putpixel (img : Image) (xy : Z * Z) (value : Z) : option Image :=
  let '(width, height) := size img in
  let x := if decide (xy.1 < 0)%Z then (xy.1 + width)%Z else xy.1 in
  let y := if decide (xy.2 < 0)%Z then (xy.2 + height)%Z else xy.2 in
  if decide (0 <= x < width ∧ 0 <= y < height)%Z
  then Some {| size := size img; pixels := <[(x, y) := value]> (pixels img) |}
  else None.

(** The values that the transforms store in the info dict. *)
Inductive info_value :=
  | InfoInt (n : Z)
  | InfoBool (b : bool)
  | InfoImage (img : Image).

Abbreviation info_dict := (gmap string info_value).

(** [AddInfoDict.__call__]. *)
Definition AddInfoDict_call {I} (sample : I * Z) : I * Z * info_dict :=
  let '(img, target) := sample in
  (img, target, {[ "original_target" := InfoInt target ]}).

Inductive corner := TopLeft | TopRight | BottomLeft | BottomRight.

Record CornerPixelToWhite := MkCornerPixelToWhite {
  p_backdoor : Qc;
  cp_corner : corner;
  target_class : Z;
  return_original : bool;
}.

(** [CornerPixelToWhite.__call__]; [rand] is the value that
    [torch.rand(1)] draws, [None] the [IndexError] of [putpixel]. *)
Definition CornerPixelToWhite_call (self : CornerPixelToWhite) (rand : Qc)
    (sample : Image * Z * info_dict) : option (Image * Z * info_dict) :=
  let '(img, target, info) := sample in
  if decide (p_backdoor self < rand) then
    let info := <["backdoored" := InfoBool false]> info in
    let info :=
      if return_original self then <["original_img" := InfoImage img]> info
      else info in
    Some (img, target, info)
  else
    let info := <["backdoored" := InfoBool true]> info in
    let info :=
      if return_original self then <["original_img" := InfoImage img]> info
      else info in
    let '(width, height) := size img in
    img ← match cp_corner self with
          | TopLeft => putpixel img (0, 0)%Z 255
          | TopRight => putpixel img (width - 1, 0)%Z 255
          | BottomLeft => putpixel img (0, height - 1)%Z 255
          | BottomRight => putpixel img (width - 1, height - 1)%Z 255
          end;
    Some (img, target_class self, info).

(** The position of a corner in an image of the given size. *)
Definition corner_xy (c : corner) (sz : Z * Z) : Z * Z :=
  match c with
  | TopLeft => (0, 0)
  | TopRight => (sz.1 - 1, 0)
  | BottomLeft => (0, sz.2 - 1)
  | BottomRight => (sz.1 - 1, sz.2 - 1)
  end%Z.

(** [img.shape] of a two-dimensional array. *)
Definition shape (a : array) : nat * nat := (length a, last_dim a).

Record GaussianNoise := MkGaussianNoise {
  std : Qc;
}.

Section Noise.

(** The global generator of [np.random]: [standard_normal k] is its
    [k]-th standard normal draw; the generator's state is the number of
    draws made so far. *)
Variable standard_normal : nat -> Qc.

(** [np.random.normal(loc, scale, shape)]: a [ValueError] ([None]) for a
    negative [scale], otherwise [loc + scale * z] for fresh draws [z],
    filled in row by row. *)
Definition normal (loc scale : Qc) (shape : nat * nat) (pos : nat)
    : option (array * nat) :=
  if decide (scale < 0) then None
  else
    let '(rows, cols) := shape in
    Some (map (fun i =>
                 map (fun j => loc + scale * standard_normal (pos + i * cols + j))
                     (seq 0 cols))
              (seq 0 rows),
          (pos + rows * cols)%nat).

(** [GaussianNoise.__call__], threading the generator's state; [None] is
    the exception of [np.random.normal]. *)
Definition GaussianNoise_call (self : GaussianNoise)
    (sample : array * Z * info_dict) (pos : nat)
    : option ((array * Z * info_dict) * nat) :=
  let '(img, target, info) := sample in
  '(noise, pos) ← normal 0 (std self) (shape img) pos;
  let img := add img noise in
  Some ((img, target, info), pos).

End Noise.

(** ** The transform pipeline ([abstractions/data.py]) *)

(** [to_numpy(img)]: [np.array(img, dtype=float32) / 255.0], one row of
    the array per line of the image. *)
Definition to_numpy (img : Image) : array :=
  let '(width, height) := size img in
  map (fun y =>
         map (fun x => Qc_of_Z (getpixel img (Z.of_nat x, Z.of_nat y)) / Qc_of_Z 255)
             (seq 0 (Z.to_nat width)))
      (seq 0 (Z.to_nat height)).

(** The values of a transform's configuration. *)
Inductive pyvalue :=
  | PyNone
  | PyBool (b : bool)
  | PyInt (n : Z)
  | PyFloat (q : Qc)
  | PyStr (s : string).

(** Python's truth value, as [not transform_config["enabled"]] tests it. *)
Definition truthy (v : pyvalue) : bool :=
  match v with
  | PyNone => false
  | PyBool b => b
  | PyInt n => negb (n =? 0)%Z
  | PyFloat q => negb (bool_decide (q = 0))
  | PyStr s => negb (bool_decide (s = ""%string))
  end.

Abbreviation kwargs := (gmap string pyvalue).

(** A number passed for a float parameter. *)
Definition as_number (v : pyvalue) : option Qc :=
  match v with
  | PyBool b => Some (if b then 1 else 0)
  | PyInt n => Some (Qc_of_Z n)
  | PyFloat q => Some q
  | _ => None
  end.

Definition corner_of_string (s : string) : option corner :=
  if decide (s = "top-left"%string) then Some TopLeft
  else if decide (s = "top-right"%string) then Some TopRight
  else if decide (s = "bottom-left"%string) then Some BottomLeft
  else if decide (s = "bottom-right"%string) then Some BottomRight
  else None.

(** An instance of [CornerPixelToWhite] as [__init__] leaves it: each
    attribute holds the argument as it was passed, of whatever type.  The
    record [CornerPixelToWhite] above, on which [__call__] is embedded, is
    an instance whose attributes have the annotated types. *)
Record CornerPixelToWhite_object := MkCornerPixelToWhite_object {
  attr_p_backdoor : pyvalue;
  attr_corner : pyvalue;
  attr_target_class : pyvalue;
  attr_return_original : pyvalue;
}.

(** An instance of [GaussianNoise] as [__init__] leaves it. *)
Record GaussianNoise_object := MkGaussianNoise_object {
  attr_std : pyvalue;
}.

(** [corner in ["top-left", "top-right", "bottom-left", "bottom-right"]]. *)
Definition valid_corner (corner : pyvalue) : Prop :=
  match corner with
  | PyStr s => is_Some (corner_of_string s)
  | _ => False
  end.

Global Instance valid_corner_dec (corner : pyvalue) : Decision (valid_corner corner).
Proof. destruct corner; simpl; apply _. Defined.

(** The call of [CornerPixelToWhite] with the keyword arguments [kw].
    Binding the arguments: an unknown keyword or a missing [p_backdoor] is
    a [TypeError], the other three parameters have defaults.  The body: the
    comparison [0 <= p_backdoor <= 1] is a [TypeError] when [p_backdoor] is
    not a number, the two assertions must hold, and the four arguments are
    stored as they are.  [None] is any of these exceptions. *)
Definition CornerPixelToWhite_init (kw : kwargs) : option CornerPixelToWhite_object :=
  guard (dom kw ⊆ ({[ "p_backdoor"; "corner"; "target_class"; "return_original" ]}
                    : gset string))%string;;
  p_backdoor ← kw !! "p_backdoor"%string;
  let corner := default (PyStr "top-left") (kw !! "corner"%string) in
  let target_class := default (PyInt 0) (kw !! "target_class"%string) in
  let return_original := default (PyBool false) (kw !! "return_original"%string) in
  p ← as_number p_backdoor;
  guard (0 <= p ∧ p <= 1);;
  guard (valid_corner corner);;
  Some {| attr_p_backdoor := p_backdoor;
          attr_corner := corner;
          attr_target_class := target_class;
          attr_return_original := return_original |}.

(** The call of [GaussianNoise] with the keyword arguments [kw]: exactly
    the keyword [std], stored as it is. *)
Definition GaussianNoise_init (kw : kwargs) : option GaussianNoise_object :=
  guard (dom kw ⊆ ({[ "std" ]} : gset string))%string;;
  std ← kw !! "std"%string;
  Some {| attr_std := std |}.

Section Transforms.

(** [custom_transforms.NoiseBackdoor] is named by [get_transforms] but is
    not defined in [custom_transforms.py]: its objects and its
    constructor are parameters. *)
Variable NoiseBackdoor : Type.
Variable NoiseBackdoor_init : kwargs -> option NoiseBackdoor.

(** The elements of the list that [get_transforms] returns;
    [ToNumpy] is [utils.adapt_transform(to_numpy)]. *)
Inductive transform_t :=
  | TAddInfoDict
  | TCornerPixelToWhite (t : CornerPixelToWhite_object)
  | TToNumpy
  | TGaussianNoise (t : GaussianNoise_object)
  | TNoiseBackdoor (t : NoiseBackdoor).

Definition PIL_TRANSFORMS : list (string * (kwargs -> option transform_t)) :=
  [ ("pixel_backdoor"%string,
     fun kw => TCornerPixelToWhite <$> CornerPixelToWhite_init kw) ].

Definition NP_TRANSFORMS : list (string * (kwargs -> option transform_t)) :=
  [ ("noise"%string, fun kw => TGaussianNoise <$> GaussianNoise_init kw);
    ("noise_backdoor"%string, fun kw => TNoiseBackdoor <$> NoiseBackdoor_init kw) ].

Variable config : gmap string kwargs.

(** [process_transform(name, transform)]: the list [transforms] after the
    call, or [None] when the constructor raises. *)
Definition process_transform (name : string)
    (transform : kwargs -> option transform_t) (transforms : list transform_t)
    : option (list transform_t) :=
  match config !! name with
  | Some transform_config =>
      match transform_config !! "enabled"%string with
      | Some enabled =>
          if negb (truthy enabled) then Some transforms
          else
            t ← transform (delete "enabled"%string transform_config);
            Some (transforms ++ [t])
      | None =>
          t ← transform transform_config;
          Some (transforms ++ [t])
      end
  | None => Some transforms
  end.

(** [for name, transform in table: process_transform(name, transform)]. *)
Definition process_all (table : list (string * (kwargs -> option transform_t)))
    (transforms : list transform_t) : option (list transform_t) :=
  foldl (fun acc nt => acc ≫= process_transform nt.1 nt.2) (Some transforms) table.

Definition get_transforms : option (list transform_t) :=
  let transforms := [TAddInfoDict] in
  transforms ← process_all PIL_TRANSFORMS transforms;
  let transforms := transforms ++ [TToNumpy] in
  transforms ← process_all NP_TRANSFORMS transforms;
  Some transforms.

(** The keyword arguments with which the transform [name] is built, when
    the configuration has it and does not switch it off. *)
Definition enabled_kwargs (name : string) : option kwargs :=
  c ← config !! name;
  match c !! "enabled"%string with
  | Some v => if truthy v then Some (delete "enabled"%string c) else None
  | None => Some c
  end.

End Transforms.

Arguments TAddInfoDict {NoiseBackdoor}.
Arguments TCornerPixelToWhite {NoiseBackdoor} t.
Arguments TToNumpy {NoiseBackdoor}.
Arguments TGaussianNoise {NoiseBackdoor} t.
Arguments TNoiseBackdoor {NoiseBackdoor} t.

(** ** [ClassificationTrainer] ([abstractions/train_base.py]) *)

Section Trainer.

Variable softmax_cross_entropy : array -> array -> vec.

(** The parameters of the model (a pytree) and the rest of the training
    state (optimizer, its state, the step count). *)
Variable Params : Type.
Variable OptState : Type.

Record TrainState := MkTrainState {
  apply_fn : Params -> array -> array;
  params : Params;
  opt : OptState;
}.

(** [state.apply_gradients(grads=grads)]: one step of the optimizer. *)
Variable apply_gradients : TrainState -> Params -> TrainState.

(** The gradient operator of jax on functions of the parameters. *)
Variable grad_params : (Params -> Qc) -> Params -> Params.


Variable infos : Type.
Variable num_classes : nat.

Definition losses (params : Params) (state : TrainState)
    (batch : array * list nat * infos) : Qc * Qc :=
  let '(images, labels, infos) := batch in
  let logits := apply_fn state params images in
  let one_hot := one_hot labels num_classes in
  let losses := softmax_cross_entropy logits one_hot in
  let loss := mean losses in
  let correct := correct logits labels in
  let accuracy := mean correct in
  (loss, accuracy).

Abbreviation metrics := (gmap string Qc).



End Trainer.

(** ** [ToyFeaturesTask] ([cupbearer/tasks/toy_features.py]) *)

(** [ToyFeaturesConfig] and [StoredModel] are imported from modules of the
    package that are not part of the sources at hand; the task only builds
    them from keyword arguments, so they are records of these. *)
Record ToyFeaturesConfig := MkToyFeaturesConfig {
  correlated : bool;
  tf_noise : Qc;
}.

Record StoredModel := MkStoredModel {
  path : string;
}.

(** The dataclass with its two fields and the two attributes that the
    [_init_*] methods of [TaskConfig] fill in. *)
Record ToyFeaturesTask := MkToyFeaturesTask {
  run_path : string;
  noise : Qc;
  _train_data : option ToyFeaturesConfig;
  _model : option StoredModel;
}.

(** [ToyFeaturesTask(run_path, noise)], with [noise] defaulting to [0.1]. *)
Definition new_ToyFeaturesTask (run_path : string) (noise : option Qc)
    : ToyFeaturesTask :=
  {| run_path := run_path;
     noise := default one_tenth noise;
     _train_data := None;
     _model := None |}.

Definition _init_train_data (self : ToyFeaturesTask) : ToyFeaturesTask :=
  {| run_path := run_path self;
     noise := noise self;
     _train_data := Some {| correlated := true; tf_noise := noise self |};
     _model := _model self |}.

Definition _get_anomalous_test_data (self : ToyFeaturesTask) : ToyFeaturesConfig :=
  {| correlated := false; tf_noise := noise self |}.

Definition _init_model (self : ToyFeaturesTask) : ToyFeaturesTask :=
  {| run_path := run_path self;
     noise := noise self;
     _train_data := _train_data self;
     _model := Some {| path := run_path self |} |}.

(** ** Definitions for the statements *)

(** The update [mean = (i * mean + x) / (i + 1)] run over the values [xs],
    the first of them at index [i]. *)
Fixpoint running_mean (i : nat) (m : Qc) (xs : vec) : Qc :=
  match xs with
  | [] => m
  | x :: rest => running_mean (S i) ((Qc_of_nat i * m + x) / (Qc_of_nat i + 1)) rest
  end.

(** A pixel value that is a color. *)
Definition in_unit_interval (x : Qc) : Prop := 0 <= x ∧ x <= 1.

(** Every row of an array has [cols] entries. *)
Definition rectangular (cols : nat) (a : array) : Prop :=
  Forall (fun row => length row = cols) a.

(** A small instance of the library functions, for running the model on
    concrete batches: a classifier that always answers class 0, a loss that
    is 0 on every row, and a gradient whose entries are all 1. *)
Definition toy_model (x : array) : array := map (fun _ => [1; 0]) x.
Definition toy_softmax_cross_entropy (logits labels : array) : vec :=
  map (fun _ => 0) logits.
Definition toy_grad (f : array -> Qc) (x : array) : array :=
  map (map (fun _ => 1)) x.
Definition toy_cfg : config :=
  {| eps := default_eps; batch_size := 2; max_examples := Some 3%nat |}.
Definition one_half : Qc := Q2Qc (1 # 2).
Definition toy_batches (label : nat) : list (batch unit) :=
  [ ([[0; 1]; [one_half; one_half]], [label; label], tt);
    ([[1; 1]; [0; one_half]], [label; label], tt);
    ([[one_half; 0]], [label], tt) ].
(** Two batches of different sizes: the classifier is right on the two
    examples of the first and wrong on the one example of the second. *)
Definition uneven_batches : list (batch unit) :=
  [ ([[0; 1]; [one_half; one_half]], [0; 0]%nat, tt);
    ([[one_half; 0]], [1%nat], tt) ].
Definition unbounded_cfg : config :=
  {| eps := default_eps; batch_size := 2; max_examples := None |}.
Definition no_files : files :=
  {| adv_examples_file := None; adv_examples_json := None; adv_examples_pdf := false |}.

(** Concrete samples and files for running the dataset and the transforms. *)
Definition stored_files : files :=
  {| adv_examples_file := Some [[0; 1]; [one_half; 0]; [1; 1]];
     adv_examples_json := None;
     adv_examples_pdf := false |}.
Definition failing_attack (fs : files) : option files := None.

Definition toy_image : Image :=
  {| size := (3, 2)%Z;
     pixels := {[ (0, 0)%Z := 7%Z; (2, 1)%Z := 9%Z ]} |}.
Definition toy_backdoor : CornerPixelToWhite :=
  {| p_backdoor := one_half; cp_corner := BottomRight;
     target_class := 4; return_original := true |}.
Definition toy_info : info_dict := {[ "original_target"%string := InfoInt 5 ]}.

Definition toy_config : gmap string (gmap string pyvalue) :=
  {[ "pixel_backdoor"%string :=
       {[ "enabled"%string := PyBool true;
          "p_backdoor"%string := PyFloat one_half;
          "corner"%string := PyStr "bottom-right" ]};
     "noise"%string :=
       {[ "enabled"%string := PyBool false; "std"%string := PyFloat one_tenth ]};
     "noise_backdoor"%string := {[ "std"%string := PyFloat one_tenth ]} ]}.

(** What one entry of a table of [get_transforms] contributes: nothing
    when the transform is not selected, the transform built from the
    selected keyword arguments otherwise ([None] when its constructor
    raises). *)
Definition table_entry {T} (config : gmap string (gmap string pyvalue))
    (name : string) (ctor : kwargs -> option T) : option (list T) :=
  match enabled_kwargs config name with
  | None => Some []
  | Some kw => t ← ctor kw; Some [t]
  end.

(** A transform is off in a configuration: it has no entry, or its entry
    has a falsy [enabled]. *)
Definition switched_off (config : gmap string (gmap string pyvalue))
    (name : string) : Prop :=
  config !! name = None
  ∨ exists c v, config !! name = Some c
                ∧ c !! "enabled"%string = Some v ∧ truthy v = false.

(** ** [CornerPixelToWhite] on image objects

    [putpixel] changes the image object it is called on, and [img.copy()]
    makes a new one.  Here the images live in a store of objects, a sample
    holds the address of its image, and so does [info["original_img"]]. *)

Inductive info_ref :=
  | RefInt (n : Z)
  | RefBool (b : bool)
  | RefImage (address : nat).

(** [img.copy()]: a new object with the contents of [img]. *)
Definition copy_image (store : gmap nat Image) (img : nat)
    : option (gmap nat Image * nat) :=
  image ← store !! img;
  let address := fresh (dom store) in
  Some (<[address := image]> store, address).

(** [img.putpixel(xy, value)] on the object at [img]. *)
Definition putpixel_at (store : gmap nat Image) (img : nat) (xy : Z * Z)
    (value : Z) : option (gmap nat Image) :=
  image ← store !! img;
  image ← putpixel image xy value;
  Some (<[img := image]> store).

(** [CornerPixelToWhite.__call__] on a sample whose image is the object at
    address [img]: the store after the call and the returned sample. *)
Definition CornerPixelToWhite_call_store (self : CornerPixelToWhite) (rand : Qc)
    (store : gmap nat Image) (sample : nat * Z * gmap string info_ref)
    : option (gmap nat Image * (nat * Z * gmap string info_ref)) :=
  let '(img, target, info) := sample in
  if decide (p_backdoor self < rand) then
    let info := <["backdoored"%string := RefBool false]> info in
    let info :=
      if return_original self then <["original_img"%string := RefImage img]> info
      else info in
    Some (store, (img, target, info))
  else
    let info := <["backdoored"%string := RefBool true]> info in
    '(store, info) ←
      (if return_original self then
         '(store, original) ← copy_image store img;
         Some (store, <["original_img"%string := RefImage original]> info)
       else Some (store, info));
    image ← store !! img;
    let '(width, height) := size image in
    store ← match cp_corner self with
            | TopLeft => putpixel_at store img (0, 0)%Z 255
            | TopRight => putpixel_at store img (width - 1, 0)%Z 255
            | BottomLeft => putpixel_at store img (0, height - 1)%Z 255
            | BottomRight => putpixel_at store img (width - 1, height - 1)%Z 255
            end;
    Some (store, (img, target_class self, info)).

(** Two arrays have the same shape: as many rows, and rows of the same
    lengths. *)
Definition same_shape (a b : array) : Prop :=
  Forall2 (fun row row' => length row = length row') a b.

(** The backdoor at the two ends of the probability. *)
Definition always_backdoor : CornerPixelToWhite :=
  {| p_backdoor := 1; cp_corner := TopRight;
     target_class := 4; return_original := false |}.
Definition never_backdoor : CornerPixelToWhite :=
  {| p_backdoor := 0; cp_corner := TopRight;
     target_class := 4; return_original := false |}.

(** ** [attack] with its plotting block

    [attack] above takes the last block of the function, from
    [plt.subplots] to [plt.savefig], to run through.  An exception of
    matplotlib in that block ends the call after [adv_examples] and
    [adv_examples.json] were written. *)

Inductive attack_end :=
  | Ended (o : outcome)   (* one of the ends that [attack] has *)
  | PlotError.            (* an exception in the plotting block *)

(** How the plotting block ends: it runs through, or it raises, before or
    after [plt.savefig] has created the file of the figure. *)
Inductive plot_end :=
  | PlotDone
  | PlotRaises (pdf_created : bool).

Section AttackPlot.

Variable softmax_cross_entropy : array -> array -> vec.
Variable grad : (array -> Qc) -> array -> array.
Variable model_apply : array -> array.
Variable infos : Type.
Variable cfg : config.

(** How the plotting block ends for the saved array. *)
Variable plot : array -> plot_end.

(** [attack(cfg)] with the ways in which its last block can end.  When the
    block raises, the file of the figure exists if it existed before or
    [plt.savefig] got as far as creating it. *)
Definition attack_with_plot (batches : list (batch infos)) (fs : files)
    : attack_end * files :=
  match adv_examples_file fs with
  | Some _ => (Ended Skipped, fs)
  | None =>
      let st := attack_loop softmax_cross_entropy grad model_apply infos cfg
                  0 batches initial_state in
      if decide (one_tenth < mean_new_accuracy st)
      then (Ended (RuntimeError (mean_new_accuracy st)), fs)
      else
        match concatenate (adv_examples st) with
        | None => (Ended ConcatenateError, fs)
        | Some adv_examples =>
            let written :=
              {| adv_examples_file := Some adv_examples;
                 adv_examples_json :=
                   Some {| original_loss := mean_original_loss st;
                           new_loss := mean_new_loss st;
                           new_accuracy := mean_new_accuracy st;
                           stats_eps := eps cfg;
                           stats_num_examples := num_examples st |};
                 adv_examples_pdf := adv_examples_pdf fs |} in
            match plot adv_examples with
            | PlotDone =>
                (Ended Finished,
                 {| adv_examples_file := adv_examples_file written;
                    adv_examples_json := adv_examples_json written;
                    adv_examples_pdf := true |})
            | PlotRaises pdf_created =>
                (PlotError,
                 {| adv_examples_file := adv_examples_file written;
                    adv_examples_json := adv_examples_json written;
                    adv_examples_pdf := adv_examples_pdf fs || pdf_created |})
            end
        end
  end.

(** The attack module run as a process of its own: whether the exit
    status is zero, and the files the process leaves. *)
Definition attack_process (batches : list (batch infos)) (fs : files)
    : bool * files :=
  match attack_with_plot batches fs with
  | (Ended Skipped, fs') | (Ended Finished, fs') => (true, fs')
  | (_, fs') => (false, fs')
  end.

End AttackPlot.

(** ** The constructor of the dataset and the exit status of the attack *)

Section DatasetExit.

(** The subprocess as [subprocess.run] with [check=True] sees it: whether
    its exit status is zero, and the files it leaves, whatever the status. *)
Variable run_attack : files -> bool * files.

Definition load_or_attack_exit (fs : files) : (dataset_error + array) * files :=
  match load_adv_examples fs with
  | inr a => (inr a, fs)
  | inl _ =>
      let '(ok, fs') := run_attack fs in
      if ok then (load_adv_examples fs', fs')
      else (inl CalledProcessError, fs')
  end.

Definition dataset_init_exit (fs : files) (num_examples : option Z)
    : (dataset_error + AdversarialExampleDataset) * files :=
  match load_or_attack_exit fs with
  | (inl e, fs) => (inl e, fs)
  | (inr examples, fs) =>
      let num_examples :=
        match num_examples with
        | None => Z.of_nat (length examples)
        | Some n => n
        end in
      if decide (Z.of_nat (length examples) < num_examples)%Z
      then (inl (ValueError (length examples) num_examples), fs)
      else (inr {| examples := examples; ds_num_examples := num_examples |}, fs)
  end.

End DatasetExit.

(** * Properties *)

(** ** Arithmetic of running means *)

Lemma Qc_of_nat_S (n : nat) : Qc_of_nat (S n) = Qc_of_nat n + 1.
Proof.
  unfold Qc_of_nat. rewrite Nat2Z.inj_succ, <- Z.add_1_r, Z2Qc_inj_add.
  by rewrite Z2Qc_inj_1.
Qed.

Lemma Qc_of_nat_0 : Qc_of_nat 0 = 0.
Proof. apply Z2Qc_inj_0. Qed.

Lemma Qc_of_nat_succ_neq_0 (n : nat) : Qc_of_nat n + 1 ≠ 0.
Proof.
  rewrite <- Qc_of_nat_S. unfold Qc_of_nat.
  rewrite <- Z2Qc_inj_0. intros H. apply Z2Qc_inj in H. lia.
Qed.

(** The invariant of the update: after the values [xs], the mean times the
    number of values seen is the sum of the values seen. *)
Lemma running_mean_invariant (xs : vec) : forall (i : nat) (m : Qc),
  running_mean i m xs * (Qc_of_nat i + Qc_of_nat (length xs))
  = Qc_of_nat i * m + sum xs.
Proof.
  induction xs as [|x rest IH]; intros i m; simpl.
  - rewrite Qc_of_nat_0. ring.
  - pose proof (Qc_of_nat_succ_neq_0 i) as Hne.
    rewrite (Qc_of_nat_S (length rest)).
    replace (Qc_of_nat i + (Qc_of_nat (length rest) + 1))
      with (Qc_of_nat (S i) + Qc_of_nat (length rest))
      by (rewrite Qc_of_nat_S; ring).
    rewrite IH, Qc_of_nat_S. unfold sum. field. exact Hne.
Qed.

Lemma running_mean_is_mean (xs : vec) :
  xs ≠ [] -> running_mean 0 0 xs = mean xs.
Proof.
  intros Hne. unfold mean.
  assert (Hlen : Qc_of_nat (length xs) ≠ 0).
  { destruct xs as [|x rest]; [done|]. simpl length.
    rewrite Qc_of_nat_S. apply Qc_of_nat_succ_neq_0. }
  pose proof (running_mean_invariant xs 0 0) as Hinv.
  rewrite Qc_of_nat_0 in Hinv.
  replace (0 + Qc_of_nat (length xs)) with (Qc_of_nat (length xs)) in Hinv by ring.
  replace (0 * 0 + sum xs) with (sum xs) in Hinv by ring.
  rewrite <- Hinv. field. exact Hlen.
Qed.

(** ** The attack loop *)

Section AttackFacts.

Variable softmax_cross_entropy : array -> array -> vec.
Variable grad : (array -> Qc) -> array -> array.
Variable model_apply : array -> array.
Variable infos : Type.
Variable cfg : config.

Local Abbreviation batch := (batch infos).
Local Abbreviation body := (attack_body softmax_cross_entropy grad model_apply infos cfg).
Local Abbreviation steps := (attack_steps softmax_cross_entropy grad model_apply infos cfg).
Local Abbreviation loop := (attack_loop softmax_cross_entropy grad model_apply infos cfg).
Local Abbreviation adv_of := (adv_inputs_of softmax_cross_entropy grad model_apply infos cfg).
Local Abbreviation orig_of := (original_loss_of softmax_cross_entropy grad model_apply infos cfg).
Local Abbreviation loss_of := (new_loss_of softmax_cross_entropy grad model_apply infos cfg).
Local Abbreviation acc_of := (new_accuracy_of softmax_cross_entropy grad model_apply infos cfg).

(** The body in terms of the per-batch values. *)
Lemma attack_body_unfold (i : nat) (b : batch) (st : loop_state) :
  body i b st =
  {| adv_examples := adv_examples st ++ [adv_of b];
     num_examples := (num_examples st + length (adv_of b))%nat;
     mean_original_loss :=
       (Qc_of_nat i * mean_original_loss st + orig_of b) / (Qc_of_nat i + 1);
     mean_new_loss :=
       (Qc_of_nat i * mean_new_loss st + loss_of b) / (Qc_of_nat i + 1);
     mean_new_accuracy :=
       (Qc_of_nat i * mean_new_accuracy st + acc_of b) / (Qc_of_nat i + 1) |}.
Proof.
  destruct b as [[inputs labels] inf].
  unfold attack_body, new_loss_of, new_accuracy_of, adv_inputs_of,
    original_loss_of.
  reflexivity.
Qed.

(** The state after running the body over a list of batches. *)
Lemma attack_steps_state (batches : list batch) : forall (i : nat) (st : loop_state),
  let st' := steps i batches st in
  adv_examples st' = adv_examples st ++ map adv_of batches
  ∧ mean_original_loss st'
    = running_mean i (mean_original_loss st) (map orig_of batches)
  ∧ mean_new_loss st'
    = running_mean i (mean_new_loss st) (map loss_of batches)
  ∧ mean_new_accuracy st'
    = running_mean i (mean_new_accuracy st) (map acc_of batches).
Proof.
  induction batches as [|b rest IH]; intros i st; simpl.
  - by rewrite app_nil_r.
  - destruct (IH (S i) (body i b st)) as (Ha & Ho & Hl & Hc).
    rewrite Ha, Ho, Hl, Hc, attack_body_unfold. simpl.
    by rewrite <- app_assoc.
Qed.

(** The loop stops after a prefix of the batches, and after at least one
    batch when there is one. *)
Lemma attack_loop_prefix (batches : list batch) : forall (i : nat) (st : loop_state),
  batches ≠ [] ->
  exists n, (1 <= n <= length batches)%nat
    ∧ loop i batches st = steps i (take n batches) st.
Proof.
  induction batches as [|b rest IH]; intros i st Hne; [done|].
  simpl.
  destruct (max_examples_reached cfg (num_examples (body i b st))) eqn:Hmax.
  - exists 1%nat. split; [simpl; lia|]. done.
  - destruct rest as [|b' rest'].
    + exists 1%nat. split; [simpl; lia|]. done.
    + destruct (IH (S i) (body i b st)) as (n & Hn & Heq); [done|].
      exists (S n). split; [simpl in *; lia|].
      rewrite Heq. done.
Qed.

(** Clipping puts every entry into the unit interval. *)
Lemma clip1_unit (x : Qc) : in_unit_interval (clip1 0 1 x).
Proof.
  unfold clip1, Qcmin, Qcmax, in_unit_interval.
  repeat case_decide;
    repeat match goal with
           | H : ¬ (_ < _) |- _ => apply Qcnot_lt_le in H
           end;
    split; auto using Qclt_le_weak.
Qed.

Lemma clip_unit (a : array) : Forall (Forall in_unit_interval) (clip a 0 1).
Proof.
  unfold clip. apply Forall_map, Forall_true. intros row.
  apply Forall_map, Forall_true. intros x. apply clip1_unit.
Qed.

Lemma adv_inputs_of_unit (b : batch) : Forall (Forall in_unit_interval) (adv_of b).
Proof. apply clip_unit. Qed.

End AttackFacts.

(** Entries of [add], [scale], [sign] and [clip], by position. *)
Lemma lookup_map {A B} (f : A -> B) (l : list A) (i : nat) :
  map f l !! i = f <$> (l !! i).
Proof. revert i. induction l as [|x l IH]; intros [|i]; simpl; auto. Qed.

Lemma sign1_cases (x : Qc) : sign1 x = - 1 ∨ sign1 x = 0 ∨ sign1 x = 1.
Proof. unfold sign1. destruct (x ?= 0); auto. Qed.

Lemma fgsm_single_gradient_step_eq softmax_cross_entropy grad forward_fn
    (inputs : array) (labels : list nat) (eps : Qc) :
  fgsm softmax_cross_entropy grad forward_fn inputs labels eps
  = (add inputs
       (scale eps (sign (grad (fgsm_loss softmax_cross_entropy forward_fn labels)
                              inputs))),
     fgsm_loss softmax_cross_entropy forward_fn labels inputs).
Proof. reflexivity. Qed.

(** One entry of the output of [fgsm]: the input entry moved by [eps]
    times the sign of the gradient entry. *)
Lemma fgsm_entry softmax_cross_entropy grad forward_fn
    (inputs : array) (labels : list nat) (eps : Qc)
    (i j : nat) (row grow : vec) (x g : Qc) :
  inputs !! i = Some row -> row !! j = Some x ->
  grad (fgsm_loss softmax_cross_entropy forward_fn labels) inputs !! i = Some grow ->
  grow !! j = Some g ->
  exists row', (fgsm softmax_cross_entropy grad forward_fn inputs labels eps).1 !! i
               = Some row'
    ∧ row' !! j = Some (x + eps * sign1 g).
Proof.
  intros Hrow Hx Hgrow Hg.
  exists (zip_with Qcplus row (map (Qcmult eps) (map sign1 grow))).
  rewrite fgsm_single_gradient_step_eq. cbn [fst].
  unfold add, scale, sign.
  rewrite lookup_zip_with, !lookup_map, Hrow, Hgrow.
  split; [done|].
  rewrite lookup_zip_with, !lookup_map, Hx, Hg. done.
Qed.

Lemma sign1_by_sign (g : Qc) :
  (0 < g -> sign1 g = 1) ∧ (g = 0 -> sign1 g = 0) ∧ (g < 0 -> sign1 g = - 1).
Proof.
  unfold sign1. destruct (g ?= 0) eqn:Hc.
  - apply Qceq_alt in Hc as ->.
    repeat split; try done; intros H; by apply Qclt_not_eq in H.
  - apply Qclt_alt in Hc.
    repeat split; try done.
    + intros H. apply (Qclt_trans _ _ _ Hc) in H. by apply Qclt_not_eq in H.
    + intros ->. by apply Qclt_not_eq in Hc.
  - apply Qcgt_alt in Hc.
    repeat split; try done.
    + intros ->. by apply Qclt_not_eq in Hc.
    + intros H. apply (Qclt_trans _ _ _ Hc) in H. by apply Qclt_not_eq in H.
Qed.

(** X1: every entry of the output of [fgsm] is the entry of the inputs plus
    [eps] times the sign of the entry of the gradient: the entry plus [eps]
    where the gradient is positive, the entry itself where it is zero, the
    entry minus [eps] where it is negative. *)
Lemma fgsm_entry_moves softmax_cross_entropy grad forward_fn
    (inputs : array) (labels : list nat) (eps : Qc)
    (i j : nat) (row grow : vec) (x g : Qc) :
  inputs !! i = Some row -> row !! j = Some x ->
  grad (fgsm_loss softmax_cross_entropy forward_fn labels) inputs !! i = Some grow ->
  grow !! j = Some g ->
  exists row' y,
    (fgsm softmax_cross_entropy grad forward_fn inputs labels eps).1 !! i = Some row'
    ∧ row' !! j = Some y
    ∧ y = x + eps * sign1 g
    ∧ (0 < g -> y = x + eps)
    ∧ (g = 0 -> y = x)
    ∧ (g < 0 -> y = x - eps).
Proof.
  intros Hrow Hx Hgrow Hg.
  destruct (fgsm_entry softmax_cross_entropy grad forward_fn inputs labels eps
              i j row grow x g Hrow Hx Hgrow Hg) as (row' & Hrow' & Hy).
  exists row', (x + eps * sign1 g). split; [done|]. split; [done|].
  split; [done|].
  destruct (sign1_by_sign g) as (Hpos & Hzero & Hneg).
  repeat split; intros Hsign;
    [rewrite (Hpos Hsign) | rewrite (Hzero Hsign) | rewrite (Hneg Hsign)]; ring.
Qed.


(** C3: after the loop has processed [n >= 1] batches, each of the three
    running means is the plain arithmetic mean of the [n] per-batch values,
    whatever the sizes of the batches. *)
Theorem attack_means_are_batch_means softmax_cross_entropy grad model_apply
    (infos : Type) (cfg : config) (batches : list (batch infos)) :
  batches ≠ [] ->
  let st := attack_loop softmax_cross_entropy grad model_apply infos cfg
              0 batches initial_state in
  exists n, (1 <= n <= length batches)%nat
    ∧ length (adv_examples st) = n
    ∧ let processed := take n batches in
      mean_original_loss st
      = mean (map (original_loss_of softmax_cross_entropy grad model_apply infos cfg)
                  processed)
      ∧ mean_new_loss st
        = mean (map (new_loss_of softmax_cross_entropy grad model_apply infos cfg)
                    processed)
      ∧ mean_new_accuracy st
        = mean (map (new_accuracy_of softmax_cross_entropy grad model_apply infos cfg)
                    processed).
Proof.
  intros Hne st.
  destruct (attack_loop_prefix softmax_cross_entropy grad model_apply infos cfg
              batches 0 initial_state Hne) as (n & Hn & Heq).
  exists n. subst st. rewrite Heq.
  destruct (attack_steps_state softmax_cross_entropy grad model_apply infos cfg
              (take n batches) 0 initial_state) as (Ha & Ho & Hl & Hc).
  assert (Hproc : take n batches ≠ []).
  { destruct batches, n; simpl in *; try done; lia. }
  split; [done|]. split.
  - rewrite Ha. simpl. rewrite length_map, length_take. lia.
  - simpl. rewrite Ho, Hl, Hc. simpl.
    rewrite !running_mean_is_mean; [done|..];
      intros Hnil; apply Hproc; by apply map_eq_nil in Hnil.
Qed.

Lemma attack_means_are_batch_means_witness :
  let st := attack_loop toy_softmax_cross_entropy toy_grad toy_model unit toy_cfg
              0 (toy_batches 1) initial_state in
  exists n, (1 <= n <= length (toy_batches 1))%nat
    ∧ length (adv_examples st) = n
    ∧ let processed := take n (toy_batches 1) in
      mean_original_loss st
      = mean (map (original_loss_of toy_softmax_cross_entropy toy_grad toy_model
                     unit toy_cfg) processed)
      ∧ mean_new_loss st
        = mean (map (new_loss_of toy_softmax_cross_entropy toy_grad toy_model
                       unit toy_cfg) processed)
      ∧ mean_new_accuracy st
        = mean (map (new_accuracy_of toy_softmax_cross_entropy toy_grad toy_model
                       unit toy_cfg) processed).
Proof.
  apply (attack_means_are_batch_means toy_softmax_cross_entropy toy_grad
           toy_model unit toy_cfg (toy_batches 1)).
  discriminate.
Defined.

(** The arrays collected by the loop are clipped ones. *)
Lemma attack_loop_adv_examples softmax_cross_entropy grad model_apply
    (infos : Type) (cfg : config) (batches : list (batch infos)) :
  Forall (Forall (Forall in_unit_interval))
    (adv_examples (attack_loop softmax_cross_entropy grad model_apply infos cfg
                     0 batches initial_state)).
Proof.
  destruct batches as [|b rest]; [constructor|].
  destruct (attack_loop_prefix softmax_cross_entropy grad model_apply infos cfg
              (b :: rest) 0 initial_state) as (n & _ & Heq); [done|].
  rewrite Heq.
  destruct (attack_steps_state softmax_cross_entropy grad model_apply infos cfg
              (take n (b :: rest)) 0 initial_state) as (Ha & _).
  rewrite Ha. simpl app.
  apply Forall_map, Forall_true. intros b'. apply adv_inputs_of_unit.
Qed.

Lemma Forall_concat_intro {A} (P : A -> Prop) (ls : list (list A)) :
  Forall (Forall P) ls -> Forall P (concat ls).
Proof.
  induction 1 as [|l ls Hl _ IH]; simpl; [constructor|].
  apply Forall_app. by split.
Qed.

(** C8: when the attack runs to its end, the array it has saved has every
    entry in the closed interval from 0 to 1, although the output of
    [fgsm] itself need not be in that interval (an input entry 1 pushed up
    by [eps = 8/255] is not). *)
Theorem attack_saved_examples_in_unit_interval softmax_cross_entropy grad
    model_apply (infos : Type) (cfg : config) (batches : list (batch infos))
    (fs fs' : files) :
  attack softmax_cross_entropy grad model_apply infos cfg batches fs
  = (Finished, fs') ->
  (exists saved, adv_examples_file fs' = Some saved
     ∧ Forall (Forall in_unit_interval) saved)
  ∧ (exists grad' inputs labels,
       ¬ Forall (Forall in_unit_interval)
           (fgsm softmax_cross_entropy grad' model_apply inputs labels
              default_eps).1).
Proof.
  intros Hrun. split.
  - unfold attack in Hrun.
    destruct (adv_examples_file fs); [discriminate|].
    case_decide; [discriminate|].
    pose proof (attack_loop_adv_examples softmax_cross_entropy grad model_apply
                  infos cfg batches) as Hall.
    destruct (adv_examples _) as [|a rest] eqn:Hadv; [discriminate|].
    simpl in Hrun. injection Hrun as <-. simpl.
    eexists. split; [done|].
    by apply (Forall_concat_intro _ (a :: rest)).
  - exists toy_grad, [[1]], [0%nat].
    rewrite fgsm_single_gradient_step_eq. unfold toy_grad. simpl.
    intros Hall. inversion Hall as [|? ? Hrow _]. inversion Hrow as [|? ? [_ Hle] _].
    revert Hle. vm_compute. intros Hle. by apply Hle.
Qed.

Lemma attack_saved_examples_in_unit_interval_witness :
  (exists saved,
     adv_examples_file
       (attack toy_softmax_cross_entropy toy_grad toy_model unit toy_cfg
          (toy_batches 1) no_files).2 = Some saved
     ∧ Forall (Forall in_unit_interval) saved)
  ∧ (exists grad' inputs labels,
       ¬ Forall (Forall in_unit_interval)
           (fgsm toy_softmax_cross_entropy grad' toy_model inputs labels
              default_eps).1).
Proof.
  apply (attack_saved_examples_in_unit_interval toy_softmax_cross_entropy
           toy_grad toy_model unit toy_cfg (toy_batches 1) no_files).
  vm_compute. reflexivity.
Defined.

(** C9: when the mean accuracy on the clipped adversarial examples is above
    0.1 after the loop, the attack ends in the [RuntimeError] and leaves
    the files as they were: [adv_examples] and [adv_examples.json] are not
    written. *)
Theorem attack_failure_writes_nothing softmax_cross_entropy grad model_apply
    (infos : Type) (cfg : config) (batches : list (batch infos)) (fs : files) :
  adv_examples_file fs = None ->
  let st := attack_loop softmax_cross_entropy grad model_apply infos cfg
              0 batches initial_state in
  one_tenth < mean_new_accuracy st ->
  let result := attack softmax_cross_entropy grad model_apply infos cfg batches fs in
  result.1 = RuntimeError (mean_new_accuracy st)
  ∧ result.2 = fs
  ∧ adv_examples_file result.2 = None
  ∧ adv_examples_json result.2 = adv_examples_json fs.
Proof.
  intros Hnone st Hacc result. subst result. unfold attack.
  rewrite Hnone. fold st. case_decide; [|done].
  simpl. by rewrite Hnone.
Qed.

Lemma attack_failure_writes_nothing_witness :
  let st := attack_loop toy_softmax_cross_entropy toy_grad toy_model unit toy_cfg
              0 (toy_batches 0) initial_state in
  let result := attack toy_softmax_cross_entropy toy_grad toy_model unit toy_cfg
                  (toy_batches 0) no_files in
  result.1 = RuntimeError (mean_new_accuracy st)
  ∧ result.2 = no_files
  ∧ adv_examples_file result.2 = None
  ∧ adv_examples_json result.2 = adv_examples_json no_files.
Proof.
  apply (attack_failure_writes_nothing toy_softmax_cross_entropy toy_grad
           toy_model unit toy_cfg (toy_batches 0) no_files).
  - reflexivity.
  - vm_compute. reflexivity.
Defined.

(** ** [AdversarialExampleDataset] *)

Lemma py_getitem_in_range {A} (l : list A) (idx : Z) :
  (0 <= idx)%Z -> py_getitem l idx = l !! Z.to_nat idx.
Proof.
  intros Hidx. unfold py_getitem.
  repeat case_decide; try lia; done.
Qed.

(** C10: once the examples are loaded, the constructor ends in the
    [ValueError] exactly when more examples are requested than are stored;
    for a dataset it returns, the length is the requested number, an index
    from 0 up to that number yields the stored example at that position, and
    an index at or above that number is an [IndexError]. *)
Theorem dataset_len_getitem (run_attack : files -> option files)
    (fs fs1 : files) (num_examples : option Z) (stored : array) :
  load_or_attack run_attack fs = (inr stored, fs1) ->
  let requested := default (Z.of_nat (length stored)) num_examples in
  let result := (dataset_init run_attack fs num_examples).1 in
  (result = inl (ValueError (length stored) requested)
   ↔ (Z.of_nat (length stored) < requested)%Z)
  ∧ (forall self, result = inr self ->
       examples self = stored
       ∧ dataset_len self = requested
       ∧ ((0 <= requested)%Z -> py_len self = Some requested)
       ∧ (forall idx, (0 <= idx < requested)%Z ->
            exists x, stored !! Z.to_nat idx = Some x
                      ∧ dataset_getitem self idx = inr x)
       ∧ (forall idx, (requested <= idx)%Z ->
            dataset_getitem self idx = inl (IndexError idx))).
Proof.
  intros Hload requested result. subst result. unfold dataset_init.
  rewrite Hload.
  replace (match num_examples with
           | Some n => n
           | None => Z.of_nat (length stored)
           end) with requested by (by destruct num_examples).
  case_decide as Hlt; simpl.
  - split; [done|]. intros self [=].
  - split; [split; [intros [=]|done]|].
    intros self [= <-]. simpl. split; [done|].
    unfold dataset_len, py_len, dataset_getitem, dataset_len. simpl.
    split; [done|]. split; [intros; by case_decide; [lia|]|]. split.
    + intros idx [Hlo Hhi]. case_decide; [lia|].
      rewrite py_getitem_in_range by done.
      destruct (lookup_lt_is_Some_2 stored (Z.to_nat idx)) as [x Hx]; [lia|].
      exists x. by rewrite Hx.
    + intros idx Hge. by case_decide.
Qed.

Lemma dataset_len_getitem_witness :
  let stored := [[0; 1]; [one_half; 0]; [1; 1]] in
  let requested := default (Z.of_nat (length stored)) (Some 2%Z) in
  let result := (dataset_init failing_attack stored_files (Some 2%Z)).1 in
  (result = inl (ValueError (length stored) requested)
   ↔ (Z.of_nat (length stored) < requested)%Z)
  ∧ (forall self, result = inr self ->
       examples self = stored
       ∧ dataset_len self = requested
       ∧ ((0 <= requested)%Z -> py_len self = Some requested)
       ∧ (forall idx, (0 <= idx < requested)%Z ->
            exists x, stored !! Z.to_nat idx = Some x
                      ∧ dataset_getitem self idx = inr x)
       ∧ (forall idx, (requested <= idx)%Z ->
            dataset_getitem self idx = inl (IndexError idx))).
Proof.
  apply (dataset_len_getitem failing_attack stored_files stored_files (Some 2%Z)).
  reflexivity.
Defined.

(** ** Sample transforms *)

(** Writing a pixel inside the image succeeds, keeps the size, stores the
    value at that position and nothing else. *)
Lemma putpixel_inside (img : Image) (x y value : Z) :
  (0 <= x < (size img).1)%Z -> (0 <= y < (size img).2)%Z ->
  exists img', putpixel img (x, y) value = Some img'
    ∧ size img' = size img
    ∧ getpixel img' (x, y) = value
    ∧ forall xy, xy ≠ (x, y) -> getpixel img' xy = getpixel img xy.
Proof.
  intros Hx Hy. unfold putpixel. destruct (size img) as [width height] eqn:Hsz.
  simpl in *. repeat case_decide; try lia.
  eexists. split; [done|]. unfold getpixel; simpl.
  split; [done|]. split; [by rewrite lookup_insert_eq|].
  intros xy Hne. by rewrite lookup_insert_ne.
Qed.

Lemma corner_xy_inside (c : corner) (sz : Z * Z) :
  (0 < sz.1)%Z -> (0 < sz.2)%Z ->
  (0 <= (corner_xy c sz).1 < sz.1)%Z ∧ (0 <= (corner_xy c sz).2 < sz.2)%Z.
Proof. destruct c; simpl; lia. Qed.

(** The backdoor branch writes at [corner_xy]. *)
Lemma CornerPixelToWhite_call_backdoor (self : CornerPixelToWhite) (rand : Qc)
    (img : Image) (target : Z) (info : info_dict) :
  rand <= p_backdoor self ->
  CornerPixelToWhite_call self rand (img, target, info)
  = img' ← putpixel img (corner_xy (cp_corner self) (size img)) 255;
    Some (img', target_class self,
          (if return_original self
           then <["original_img"%string := InfoImage img]>
           else id) (<["backdoored"%string := InfoBool true]> info)).
Proof.
  intros Hle. unfold CornerPixelToWhite_call.
  case_decide as Hlt; [by apply Qcle_not_lt in Hle|].
  destruct (size img) as [width height].
  by destruct (cp_corner self), (return_original self).
Qed.

(** C2: on a draw at most [p_backdoor] the transform whitens the pixel of
    the configured corner (and no other pixel), returns [target_class] and
    records [backdoored = True]; on a larger draw it returns the image and
    the target as they are and records [backdoored = False].  The image has
    at least one pixel. *)
Theorem CornerPixelToWhite_call_spec (self : CornerPixelToWhite) (rand : Qc)
    (img : Image) (target : Z) (info : info_dict) :
  (0 < (size img).1)%Z -> (0 < (size img).2)%Z ->
  let result := CornerPixelToWhite_call self rand (img, target, info) in
  let xy := corner_xy (cp_corner self) (size img) in
  (rand <= p_backdoor self ->
     exists img' info',
       result = Some (img', target_class self, info')
       ∧ size img' = size img
       ∧ getpixel img' xy = 255%Z
       ∧ (forall xy', xy' ≠ xy -> getpixel img' xy' = getpixel img xy')
       ∧ info' !! "backdoored"%string = Some (InfoBool true))
  ∧ (p_backdoor self < rand ->
       exists info',
         result = Some (img, target, info')
         ∧ info' !! "backdoored"%string = Some (InfoBool false)).
Proof.
  intros Hw Hh result xy. subst result. split.
  - intros Hle. rewrite CornerPixelToWhite_call_backdoor by done.
    destruct (corner_xy_inside (cp_corner self) (size img) Hw Hh) as [Hx Hy].
    fold xy in Hx, Hy |- *. destruct xy as [x y] eqn:Hxy.
    destruct (putpixel_inside img x y 255 Hx Hy) as (img' & -> & Hsz & Hget & Hframe).
    simpl. eexists _, _. split; [done|]. repeat split; try done.
    destruct (return_original self); simpl.
    + rewrite lookup_insert_ne by done. by rewrite lookup_insert_eq.
    + by rewrite lookup_insert_eq.
  - intros Hlt. unfold CornerPixelToWhite_call. case_decide; [|done].
    eexists. split; [done|].
    destruct (return_original self).
    + rewrite lookup_insert_ne by done. by rewrite lookup_insert_eq.
    + by rewrite lookup_insert_eq.
Qed.

Lemma CornerPixelToWhite_call_spec_witness :
  let result := CornerPixelToWhite_call toy_backdoor one_tenth
                  (toy_image, 5%Z, toy_info) in
  let xy := corner_xy (cp_corner toy_backdoor) (size toy_image) in
  (one_tenth <= p_backdoor toy_backdoor ->
     exists img' info',
       result = Some (img', target_class toy_backdoor, info')
       ∧ size img' = size toy_image
       ∧ getpixel img' xy = 255%Z
       ∧ (forall xy', xy' ≠ xy -> getpixel img' xy' = getpixel toy_image xy')
       ∧ info' !! "backdoored"%string = Some (InfoBool true))
  ∧ (p_backdoor toy_backdoor < one_tenth ->
       exists info',
         result = Some (toy_image, 5%Z, info')
         ∧ info' !! "backdoored"%string = Some (InfoBool false)).
Proof.
  apply (CornerPixelToWhite_call_spec toy_backdoor one_tenth toy_image 5 toy_info).
  - reflexivity.
  - reflexivity.
Defined.

(** For a scale that is not negative [normal] returns an array of the
    requested shape, whose entries are the shifted and scaled draws, and
    moves the generator on by the number of entries. *)
Lemma normal_shape (standard_normal : nat -> Qc) (loc scale : Qc)
    (rows cols pos : nat) :
  0 <= scale ->
  exists noise,
    normal standard_normal loc scale (rows, cols) pos
    = Some (noise, (pos + rows * cols)%nat)
    ∧ length noise = rows ∧ rectangular cols noise.
Proof.
  intros Hscale. unfold normal.
  destruct (decide (scale < 0)) as [Hneg|_]; [by apply Qcle_not_lt in Hscale|].
  eexists. split; [done|]. split; [by rewrite length_map, length_seq|].
  unfold rectangular. apply Forall_map, Forall_true. intros i.
  by rewrite length_map, length_seq.
Qed.

Lemma normal_entry (standard_normal : nat -> Qc) (loc scale : Qc)
    (rows cols pos pos' i j : nat) (noise : array) :
  normal standard_normal loc scale (rows, cols) pos = Some (noise, pos') ->
  (i < rows)%nat -> (j < cols)%nat ->
  exists row, noise !! i = Some row
    ∧ row !! j = Some (loc + scale * standard_normal (pos + i * cols + j)%nat).
Proof.
  unfold normal. destruct (decide (scale < 0)); [done|].
  intros [= <- <-] Hi Hj. rewrite lookup_map, lookup_seq_lt by done. simpl.
  eexists. split; [done|].
  by rewrite lookup_map, lookup_seq_lt.
Qed.

(** A negative scale is the [ValueError] of numpy. *)
Lemma normal_negative_scale (standard_normal : nat -> Qc) (loc scale : Qc)
    (shape : nat * nat) (pos : nat) :
  scale < 0 -> normal standard_normal loc scale shape pos = None.
Proof. intros Hneg. unfold normal. by destruct (decide (scale < 0)). Qed.

(** C7: the image returned by [GaussianNoise] is the input image plus a
    noise array with as many rows as the image and as many entries per row
    as the image's rows have; the target and the info dict are returned as
    they came.  The standard deviation is not negative (numpy refuses a
    negative one). *)
Theorem GaussianNoise_call_spec (standard_normal : nat -> Qc)
    (self : GaussianNoise) (img : array) (target : Z) (info : info_dict)
    (pos : nat) :
  0 <= std self ->
  exists noise pos',
    GaussianNoise_call standard_normal self (img, target, info) pos
    = Some ((add img noise, target, info), pos')
    ∧ normal standard_normal 0 (std self) (shape img) pos = Some (noise, pos')
    ∧ length noise = length img
    ∧ rectangular (last_dim img) noise
    ∧ (rectangular (last_dim img) img -> shape (add img noise) = shape img).
Proof.
  intros Hstd.
  destruct (normal_shape standard_normal 0 (std self) (length img) (last_dim img)
              pos Hstd) as (noise & Hnormal & Hlen & Hrect).
  exists noise, (pos + length img * last_dim img)%nat.
  unfold GaussianNoise_call, shape. rewrite Hnormal. simpl.
  split; [done|]. split; [done|]. split; [done|]. split; [done|].
  intros Himg. unfold add. rewrite length_zip_with, Hlen, Nat.min_id.
  f_equal.
  destruct img as [|row rest]; destruct noise as [|nrow nrest]; try done.
  simpl. rewrite length_zip_with.
  apply Forall_cons in Hrect as [-> _]. simpl. apply Nat.min_id.
Qed.

Lemma GaussianNoise_call_spec_witness :
  exists noise pos',
    GaussianNoise_call (fun k => Qc_of_nat k) {| std := one_tenth |}
      ([[0; 1]; [one_half; 0]], 5%Z, toy_info) 7
    = Some ((add [[0; 1]; [one_half; 0]] noise, 5%Z, toy_info), pos')
    ∧ normal (fun k => Qc_of_nat k) 0 one_tenth (shape [[0; 1]; [one_half; 0]]) 7
      = Some (noise, pos')
    ∧ length noise = length [[0; 1]; [one_half; 0]]
    ∧ rectangular (last_dim [[0; 1]; [one_half; 0]]) noise
    ∧ (rectangular (last_dim [[0; 1]; [one_half; 0]]) [[0; 1]; [one_half; 0]] ->
       shape (add [[0; 1]; [one_half; 0]] noise) = shape [[0; 1]; [one_half; 0]]).
Proof.
  apply (GaussianNoise_call_spec (fun k => Qc_of_nat k) {| std := one_tenth |}
           [[0; 1]; [one_half; 0]] 5 toy_info 7).
  vm_compute. discriminate.
Defined.

(** ** The trainer *)


(** ** The toy features task *)

(** C5: the training data of a [ToyFeaturesTask] with noise [s] are
    correlated, its anomalous test data are not, and both carry the noise
    [s]. *)
Theorem ToyFeaturesTask_data (self : ToyFeaturesTask) :
  let s := noise self in
  let task := _init_train_data self in
  let anomalous := _get_anomalous_test_data task in
  exists train,
    _train_data task = Some train
    ∧ correlated train = true
    ∧ correlated anomalous = false
    ∧ tf_noise train = s
    ∧ tf_noise anomalous = s
    ∧ _get_anomalous_test_data self = anomalous.
Proof. simpl. eexists. repeat split. Qed.

(** ** The transform pipeline *)

Section TransformFacts.

Variable NoiseBackdoor : Type.
Variable NoiseBackdoor_init : kwargs -> option NoiseBackdoor.
Variable config : gmap string (gmap string pyvalue).

Local Abbreviation transform := (transform_t NoiseBackdoor).

(** One table entry either leaves the list alone or appends the
    transform built from the enabled keyword arguments. *)
Lemma process_transform_enabled (name : string)
    (ctor : kwargs -> option transform) (transforms : list transform) :
  process_transform NoiseBackdoor config name ctor transforms
  = match enabled_kwargs config name with
    | None => Some transforms
    | Some kw => t ← ctor kw; Some (transforms ++ [t])
    end.
Proof.
  unfold process_transform, enabled_kwargs.
  destruct (config !! name) as [c|]; simpl; [|done].
  destruct (c !! "enabled"%string) as [v|]; [|done].
  by destruct (truthy v).
Qed.


End TransformFacts.





(** ** The model run on concrete inputs *)

Example running_mean_three : running_mean 0 0 [1; 0; one_half] = one_half.
Proof. apply Qc_is_canon. vm_compute. reflexivity. Qed.

Example fgsm_leaves_unit_interval :
  map (map this)
      (fgsm toy_softmax_cross_entropy toy_grad toy_model [[1; 0]] [0%nat]
         default_eps).1
  = [[263 # 255; 8 # 255]]%Q.
Proof. vm_compute. reflexivity. Qed.

Example attack_stops_at_max_examples :
  let st := attack_loop toy_softmax_cross_entropy toy_grad toy_model unit toy_cfg
              0 (toy_batches 1) initial_state in
  length (adv_examples st) = 2%nat ∧ num_examples st = 4%nat.
Proof. vm_compute. done. Qed.

Example attack_skips_when_file_exists :
  attack toy_softmax_cross_entropy toy_grad toy_model unit toy_cfg
    (toy_batches 1) stored_files
  = (Skipped, stored_files).
Proof. reflexivity. Qed.

Example attack_without_batches :
  attack toy_softmax_cross_entropy toy_grad toy_model unit toy_cfg [] no_files
  = (ConcatenateError, no_files).
Proof. vm_compute. reflexivity. Qed.

Example dataset_requests_too_many :
  (dataset_init failing_attack stored_files (Some 4%Z)).1
  = inl (ValueError 3 4).
Proof. reflexivity. Qed.

Example dataset_attack_fails :
  (dataset_init failing_attack no_files None).1 = inl CalledProcessError.
Proof. reflexivity. Qed.

Example dataset_getitem_examples :
  let self := {| examples := [[0; 1]; [one_half; 0]; [1; 1]];
                 ds_num_examples := 2 |} in
  dataset_getitem self 1 = inr [one_half; 0]
  ∧ dataset_getitem self 2 = inl (IndexError 2)
  ∧ dataset_getitem self (-1) = inr [1; 1].
Proof. vm_compute. done. Qed.

Example putpixel_outside_image :
  putpixel {| size := (0, 0)%Z; pixels := ∅ |} (0, 0)%Z 255 = None.
Proof. reflexivity. Qed.

Example get_transforms_toy_config :
  get_transforms kwargs Some toy_config
  = Some [ TAddInfoDict;
           TCornerPixelToWhite
             {| attr_p_backdoor := PyFloat one_half;
                attr_corner := PyStr "bottom-right";
                attr_target_class := PyInt 0;
                attr_return_original := PyBool false |};
           TToNumpy;
           TNoiseBackdoor {[ "std"%string := PyFloat one_tenth ]} ].
Proof. vm_compute. reflexivity. Qed.

Example get_transforms_rejected_kwargs :
  get_transforms kwargs Some {[ "noise"%string := ∅ ]} = None.
Proof. vm_compute. reflexivity. Qed.

(** The accuracy is averaged over batches, not over examples: two of the
    three examples are classified correctly, the mean is one half. *)
Example attack_mean_is_over_batches :
  let st := attack_loop toy_softmax_cross_entropy toy_grad toy_model unit
              unbounded_cfg 0 uneven_batches initial_state in
  num_examples st = 3%nat ∧ mean_new_accuracy st = one_half.
Proof. split; [reflexivity|]. apply Qc_is_canon. vm_compute. reflexivity. Qed.

(** * Further properties of the code *)

(** ** Outcomes and files of [attack] *)

Section AttackOutcomes.

Variable softmax_cross_entropy : array -> array -> vec.
Variable grad : (array -> Qc) -> array -> array.
Variable model_apply : array -> array.
Variable infos : Type.
Variable cfg : config.

Local Abbreviation batch := (batch infos).
Local Abbreviation body := (attack_body softmax_cross_entropy grad model_apply infos cfg).
Local Abbreviation steps := (attack_steps softmax_cross_entropy grad model_apply infos cfg).
Local Abbreviation loop := (attack_loop softmax_cross_entropy grad model_apply infos cfg).
Local Abbreviation adv_of := (adv_inputs_of softmax_cross_entropy grad model_apply infos cfg).
Local Abbreviation acc_of := (new_accuracy_of softmax_cross_entropy grad model_apply infos cfg).

(** The counter of examples is the number of rows collected. *)
Lemma attack_steps_num_examples (batches : list batch) :
  forall (i : nat) (st : loop_state),
  num_examples (steps i batches st)
  = (num_examples st + length (concat (map adv_of batches)))%nat.
Proof.
  induction batches as [|b rest IH]; intros i st; simpl; [lia|].
  rewrite IH, attack_body_unfold, length_app. simpl. lia.
Qed.

Lemma attack_loop_counts (batches : list batch) :
  let st := loop 0 batches initial_state in
  num_examples st = length (concat (adv_examples st)).
Proof.
  destruct batches as [|b rest]; [done|]. cbv zeta.
  destruct (attack_loop_prefix softmax_cross_entropy grad model_apply infos cfg
              (b :: rest) 0 initial_state) as (n & _ & ->); [done|].
  rewrite attack_steps_num_examples.
  destruct (attack_steps_state softmax_cross_entropy grad model_apply infos cfg
              (take n (b :: rest)) 0 initial_state) as (-> & _).
  done.
Qed.

(** The loop collects nothing only when there is no batch. *)
Lemma attack_loop_collects (batches : list batch) :
  adv_examples (loop 0 batches initial_state) = [] <-> batches = [].
Proof.
  split; [|by intros ->].
  destruct batches as [|b rest]; [done|]. intros Hnil. exfalso.
  destruct (attack_loop_prefix softmax_cross_entropy grad model_apply infos cfg
              (b :: rest) 0 initial_state) as (n & Hn & Heq); [done|].
  rewrite Heq in Hnil.
  destruct (attack_steps_state softmax_cross_entropy grad model_apply infos cfg
              (take n (b :: rest)) 0 initial_state) as (Ha & _).
  rewrite Ha in Hnil. destruct n; [lia|]. done.
Qed.

(** Where the loop stops: at the first batch after which the counter has
    reached the limit, or at the last batch. *)
Lemma attack_loop_stop (batches : list batch) : forall (i : nat) (st : loop_state),
  exists n, (n <= length batches)%nat
    ∧ loop i batches st = steps i (take n batches) st
    ∧ ((n < length batches)%nat ->
       max_examples_reached cfg (num_examples (loop i batches st)) = true)
    ∧ (forall k, (0 < k < n)%nat ->
         max_examples_reached cfg (num_examples (steps i (take k batches) st))
         = false).
Proof.
  induction batches as [|b rest IH]; intros i st.
  - exists 0%nat. split; [simpl; lia|]. split; [done|].
    split; intros; simpl in *; lia.
  - simpl.
    destruct (max_examples_reached cfg (num_examples (body i b st))) eqn:Hmax.
    + exists 1%nat. simpl.
      split; [lia|]. split; [done|]. split; [done|]. intros k Hk; lia.
    + destruct (IH (S i) (body i b st)) as (n & Hn & Heq & Hstop & Hbefore).
      exists (S n). simpl. split; [lia|]. split; [done|]. split.
      * intros Hlt. apply Hstop. lia.
      * intros [|k] Hk; [lia|]. simpl.
        destruct k as [|k]; [done|].
        apply Hbefore. lia.
Qed.

End AttackOutcomes.

(** Linear facts about [Qc], through the fractions they stand for. *)
Ltac qc_linear :=
  unfold in_unit_interval in *;
  unfold Qcle, Qclt, Qcminus, Qcplus, Qcopp, Qcmult in *; simpl in *;
  repeat rewrite Qred_correct in *;
  repeat match goal with
         | |- _ ∧ _ => split
         | H : _ ∧ _ |- _ => destruct H
         end;
  lra.

Lemma sign1_step_close (x eps g : Qc) :
  0 <= eps -> x - eps <= x + eps * sign1 g ∧ x + eps * sign1 g <= x + eps.
Proof.
  intros Heps.
  destruct (sign1_cases g) as [-> | [-> | ->]]; qc_linear.
Qed.

(** Clipping to the unit interval moves a value no further from a point of
    the interval. *)
Lemma clip1_close (x lo hi z : Qc) :
  in_unit_interval x -> lo <= z -> z <= hi ->
  lo <= x -> x <= hi ->
  lo <= clip1 0 1 z ∧ clip1 0 1 z <= hi.
Proof.
  intros Hx Hlo Hhi Hlx Hxh. unfold clip1, Qcmin, Qcmax.
  repeat case_decide;
    repeat match goal with
           | H : ¬ (_ < _) |- _ => apply Qcnot_lt_le in H
           end;
    qc_linear.
Qed.

(** X2: after the clip of the attack loop, the adversarial value of an entry
    that was a color is a color within [eps] of it, for [eps >= 0]. *)
Theorem adv_inputs_entry_close softmax_cross_entropy grad model_apply
    (infos : Type) (cfg : config) (inputs : array) (labels : list nat)
    (inf : infos) (i j : nat) (row grow : vec) (x g : Qc) :
  0 <= eps cfg ->
  inputs !! i = Some row -> row !! j = Some x ->
  in_unit_interval x ->
  grad (fgsm_loss softmax_cross_entropy model_apply labels) inputs !! i = Some grow ->
  grow !! j = Some g ->
  exists row' y,
    adv_inputs_of softmax_cross_entropy grad model_apply infos cfg
      (inputs, labels, inf) !! i = Some row'
    ∧ row' !! j = Some y
    ∧ x - eps cfg <= y ∧ y <= x + eps cfg
    ∧ in_unit_interval y.
Proof.
  intros Heps Hrow Hx Hunit Hgrow Hg.
  destruct (fgsm_entry softmax_cross_entropy grad model_apply inputs labels
              (eps cfg) i j row grow x g Hrow Hx Hgrow Hg) as (row0 & Hrow0 & Hy0).
  exists (map (clip1 0 1) row0), (clip1 0 1 (x + eps cfg * sign1 g)).
  unfold adv_inputs_of, clip. cbn [fst snd].
  rewrite lookup_map, Hrow0. split; [done|].
  rewrite lookup_map, Hy0. split; [done|].
  destruct (sign1_step_close x (eps cfg) g Heps) as [Hlo Hhi].
  assert (x - eps cfg <= x ∧ x <= x + eps cfg) as [Hlx Hxh] by qc_linear.
  destruct (clip1_close x _ _ _ Hunit Hlo Hhi Hlx Hxh) as [H1 H2].
  split; [done|]. split; [done|]. apply clip1_unit.
Qed.

Lemma adv_inputs_entry_close_witness :
  exists row' y,
    adv_inputs_of toy_softmax_cross_entropy toy_grad toy_model unit toy_cfg
      ([[1; 0]], [0%nat], tt) !! 0%nat = Some row'
    ∧ row' !! 0%nat = Some y
    ∧ 1 - eps toy_cfg <= y ∧ y <= 1 + eps toy_cfg
    ∧ in_unit_interval y.
Proof.
  apply (adv_inputs_entry_close toy_softmax_cross_entropy toy_grad toy_model
           unit toy_cfg [[1; 0]] [0%nat] tt 0 0 [1; 0] [1; 1] 1 1).
  - vm_compute. discriminate.
  - reflexivity.
  - reflexivity.
  - split; vm_compute; discriminate.
  - reflexivity.
  - reflexivity.
Defined.

Lemma fgsm_entry_moves_witness :
  exists row' y,
    (fgsm toy_softmax_cross_entropy toy_grad toy_model [[1; 0]] [0%nat]
       default_eps).1 !! 0%nat = Some row'
    ∧ row' !! 1%nat = Some y
    ∧ y = 0 + default_eps * sign1 1
    ∧ (0 < 1 -> y = 0 + default_eps)
    ∧ (Q2Qc 1 = 0 -> y = 0)
    ∧ (1 < 0 -> y = 0 - default_eps).
Proof.
  apply (fgsm_entry_moves toy_softmax_cross_entropy toy_grad toy_model
           [[1; 0]] [0%nat] default_eps 0 1 [1; 0] [1; 1] 0 1);
    reflexivity.
Defined.

(** X4: once an attack has run to its end, every later attack on these files
    is skipped and leaves them alone, whatever its model, configuration and
    data. *)
Theorem attack_after_finished_is_skipped softmax_cross_entropy grad model_apply
    (infos : Type) (cfg : config) (batches : list (batch infos)) (fs fs' : files)
    softmax_cross_entropy' grad' model_apply'
    (cfg' : config) (batches' : list (batch infos)) :
  attack softmax_cross_entropy grad model_apply infos cfg batches fs
  = (Finished, fs') ->
  attack softmax_cross_entropy' grad' model_apply' infos cfg' batches' fs'
  = (Skipped, fs').
Proof.
  unfold attack at 1. destruct (adv_examples_file fs); [discriminate|].
  case_decide; [discriminate|].
  destruct (concatenate _); [|discriminate].
  intros [= <-]. reflexivity.
Qed.

Lemma attack_after_finished_is_skipped_witness :
  attack toy_softmax_cross_entropy toy_grad toy_model unit unbounded_cfg
    uneven_batches
    (attack toy_softmax_cross_entropy toy_grad toy_model unit toy_cfg
       (toy_batches 1) no_files).2
  = (Skipped,
     (attack toy_softmax_cross_entropy toy_grad toy_model unit toy_cfg
        (toy_batches 1) no_files).2).
Proof.
  apply (attack_after_finished_is_skipped toy_softmax_cross_entropy toy_grad
           toy_model unit toy_cfg (toy_batches 1) no_files).
  vm_compute. reflexivity.
Defined.

(** X6: what a finished attack has written: the saved array and the
    statistics agree on the number of examples, the recorded accuracy is at
    most 0.1, the recorded [eps] is the configured one, and the three
    recorded means are the ones left by the loop. *)
Theorem attack_finished_files softmax_cross_entropy grad model_apply
    (infos : Type) (cfg : config) (batches : list (batch infos))
    (fs fs' : files) :
  attack softmax_cross_entropy grad model_apply infos cfg batches fs
  = (Finished, fs') ->
  let st := attack_loop softmax_cross_entropy grad model_apply infos cfg
              0 batches initial_state in
  exists saved written,
    adv_examples_file fs' = Some saved
    ∧ adv_examples_json fs' = Some written
    ∧ saved = concat (adv_examples st)
    ∧ stats_num_examples written = length saved
    ∧ new_accuracy written <= one_tenth
    ∧ stats_eps written = eps cfg
    ∧ original_loss written = mean_original_loss st
    ∧ new_loss written = mean_new_loss st
    ∧ new_accuracy written = mean_new_accuracy st.
Proof.
  intros Hrun st. unfold attack in Hrun. fold st in Hrun.
  destruct (adv_examples_file fs); [discriminate|].
  case_decide as Hacc; [discriminate|]. apply Qcnot_lt_le in Hacc.
  pose proof (attack_loop_counts softmax_cross_entropy grad model_apply infos
                cfg batches) as Hcount. cbv zeta in Hcount. fold st in Hcount.
  destruct (adv_examples st) as [|a rest] eqn:Hadv; [discriminate|].
  simpl in Hrun. injection Hrun as <-. simpl.
  eexists _, _. repeat split; try done.
Qed.

Lemma attack_finished_files_witness :
  let fs' := (attack toy_softmax_cross_entropy toy_grad toy_model unit toy_cfg
                (toy_batches 1) no_files).2 in
  let st := attack_loop toy_softmax_cross_entropy toy_grad toy_model unit toy_cfg
              0 (toy_batches 1) initial_state in
  exists saved written,
    adv_examples_file fs' = Some saved
    ∧ adv_examples_json fs' = Some written
    ∧ saved = concat (adv_examples st)
    ∧ stats_num_examples written = length saved
    ∧ new_accuracy written <= one_tenth
    ∧ stats_eps written = eps toy_cfg
    ∧ original_loss written = mean_original_loss st
    ∧ new_loss written = mean_new_loss st
    ∧ new_accuracy written = mean_new_accuracy st.
Proof.
  apply (attack_finished_files toy_softmax_cross_entropy toy_grad toy_model
           unit toy_cfg (toy_batches 1) no_files).
  vm_compute. reflexivity.
Defined.

(** X7: with a positive [max_examples] the loop stops after the first batch
    that brings the number of collected examples to the limit: when it
    leaves batches unread the limit is reached, and the batches before the
    last one read gave fewer examples than the limit. *)
Theorem attack_loop_stops_at_max_examples softmax_cross_entropy grad model_apply
    (infos : Type) (cfg : config) (batches : list (batch infos)) (m : nat) :
  max_examples cfg = Some m -> (0 < m)%nat ->
  let st := attack_loop softmax_cross_entropy grad model_apply infos cfg
              0 batches initial_state in
  let adv := adv_inputs_of softmax_cross_entropy grad model_apply infos cfg in
  exists n, (n <= length batches)%nat
    ∧ adv_examples st = map adv (take n batches)
    ∧ ((n < length batches)%nat -> (m <= num_examples st)%nat)
    ∧ (forall k, (k < n)%nat ->
         (length (concat (map adv (take k batches))) < m)%nat).
Proof.
  intros Hmax Hm st adv.
  assert (Hreached : forall c, max_examples_reached cfg c = bool_decide (m <= c)%nat).
  { intros c. unfold max_examples_reached. rewrite Hmax. by destruct m; [lia|]. }
  destruct (attack_loop_stop softmax_cross_entropy grad model_apply infos cfg
              batches 0 initial_state) as (n & Hn & Heq & Hstop & Hbefore).
  exists n. split; [done|]. split.
  { subst st. rewrite Heq.
    by destruct (attack_steps_state softmax_cross_entropy grad model_apply infos
                   cfg (take n batches) 0 initial_state) as (-> & _). }
  split.
  - intros Hlt. specialize (Hstop Hlt). rewrite Hreached in Hstop.
    by apply bool_decide_eq_true in Hstop.
  - intros [|k] Hk; [rewrite take_0; simpl; lia|].
    specialize (Hbefore (S k) ltac:(lia)). rewrite Hreached in Hbefore.
    apply bool_decide_eq_false in Hbefore.
    rewrite attack_steps_num_examples in Hbefore. simpl in Hbefore.
    fold adv in Hbefore. lia.
Qed.

Lemma attack_loop_stops_at_max_examples_witness :
  let st := attack_loop toy_softmax_cross_entropy toy_grad toy_model unit toy_cfg
              0 (toy_batches 1) initial_state in
  let adv := adv_inputs_of toy_softmax_cross_entropy toy_grad toy_model unit
               toy_cfg in
  exists n, (n <= length (toy_batches 1))%nat
    ∧ adv_examples st = map adv (take n (toy_batches 1))
    ∧ ((n < length (toy_batches 1))%nat -> (3 <= num_examples st)%nat)
    ∧ (forall k, (k < n)%nat ->
         (length (concat (map adv (take k (toy_batches 1)))) < 3)%nat).
Proof.
  apply (attack_loop_stops_at_max_examples toy_softmax_cross_entropy toy_grad
           toy_model unit toy_cfg (toy_batches 1) 3).
  - reflexivity.
  - lia.
Defined.

(** X8: without [max_examples], or with [max_examples = 0], the loop reads
    every batch. *)
Theorem attack_loop_without_limit softmax_cross_entropy grad model_apply
    (infos : Type) (cfg : config) (batches : list (batch infos)) :
  max_examples cfg = None ∨ max_examples cfg = Some 0%nat ->
  let st := attack_loop softmax_cross_entropy grad model_apply infos cfg
              0 batches initial_state in
  adv_examples st
  = map (adv_inputs_of softmax_cross_entropy grad model_apply infos cfg) batches
  ∧ num_examples st = length (concat (adv_examples st)).
Proof.
  intros Hmax st.
  assert (Hreached : forall c, max_examples_reached cfg c = false).
  { intros c. unfold max_examples_reached. by destruct Hmax as [-> | ->]. }
  assert (Hall : forall bs i s,
            attack_loop softmax_cross_entropy grad model_apply infos cfg i bs s
            = attack_steps softmax_cross_entropy grad model_apply infos cfg i bs s).
  { induction bs as [|b rest IH]; intros i s; simpl; [done|].
    by rewrite Hreached, IH. }
  split.
  - subst st. rewrite Hall.
    by destruct (attack_steps_state softmax_cross_entropy grad model_apply infos
                   cfg batches 0 initial_state) as (-> & _).
  - apply attack_loop_counts.
Qed.

Lemma attack_loop_without_limit_witness :
  let st := attack_loop toy_softmax_cross_entropy toy_grad toy_model unit
              unbounded_cfg 0 uneven_batches initial_state in
  adv_examples st
  = map (adv_inputs_of toy_softmax_cross_entropy toy_grad toy_model unit
           unbounded_cfg) uneven_batches
  ∧ num_examples st = length (concat (adv_examples st)).
Proof.
  apply (attack_loop_without_limit toy_softmax_cross_entropy toy_grad toy_model
           unit unbounded_cfg uneven_batches).
  by left.
Defined.

(** ** Accuracies *)

Lemma sum_bounds (lo hi : Qc) (xs : vec) :
  Forall (fun x => lo <= x ∧ x <= hi) xs ->
  lo * Qc_of_nat (length xs) <= sum xs ∧ sum xs <= hi * Qc_of_nat (length xs).
Proof.
  induction 1 as [|x rest [Hlo Hhi] _ [IHlo IHhi]]; simpl.
  - rewrite Qc_of_nat_0. split; qc_linear.
  - rewrite Qc_of_nat_S. unfold sum in *.
    replace (lo * (Qc_of_nat (length rest) + 1))
      with (lo * Qc_of_nat (length rest) + lo) by ring.
    replace (hi * (Qc_of_nat (length rest) + 1))
      with (hi * Qc_of_nat (length rest) + hi) by ring.
    split.
    + rewrite (Qcplus_comm x). by apply Qcplus_le_compat.
    + rewrite (Qcplus_comm x). by apply Qcplus_le_compat.
Qed.

(** The mean of values between two bounds lies between the bounds. *)
Lemma mean_bounds (lo hi : Qc) (xs : vec) :
  xs ≠ [] -> Forall (fun x => lo <= x ∧ x <= hi) xs ->
  lo <= mean xs ∧ mean xs <= hi.
Proof.
  intros Hne Hall. destruct (sum_bounds lo hi xs Hall) as [Hlo Hhi].
  assert (Hpos : 0 < Qc_of_nat (length xs)).
  { destruct xs as [|x rest]; [done|]. simpl length.
    unfold Qc_of_nat. rewrite <- Z2Qc_inj_0.
    apply (proj1 (Z2Qc_inj_lt 0 _)). lia. }
  assert (Hne0 : Qc_of_nat (length xs) ≠ 0).
  { intros Heq. rewrite Heq in Hpos. by apply Qclt_not_eq in Hpos. }
  pose proof (Qcinv_pos _ Hpos) as Hinv. unfold mean, Qcdiv.
  assert (Hcancel : forall c, c * Qc_of_nat (length xs) * / Qc_of_nat (length xs) = c)
    by (intros c; field; done).
  split.
  - apply Qcle_trans with (lo * Qc_of_nat (length xs) * / Qc_of_nat (length xs)).
    + rewrite Hcancel. apply Qcle_refl.
    + apply Qcmult_le_mono_nonneg_r; [by apply Qclt_le_weak|done].
  - apply Qcle_trans with (hi * Qc_of_nat (length xs) * / Qc_of_nat (length xs)).
    + apply Qcmult_le_mono_nonneg_r; [by apply Qclt_le_weak|done].
    + rewrite Hcancel. apply Qcle_refl.
Qed.

Lemma correct_entries (logits : array) (labels : list nat) :
  Forall (fun x => 0 <= x ∧ x <= 1) (correct logits labels).
Proof.
  unfold correct. revert labels.
  induction logits as [|row rest IH]; intros [|l labels]; simpl; try constructor.
  - case_decide; split; done.
  - apply IH.
Qed.

Lemma accuracy_of_unit (logits : array) (labels : list nat) :
  length logits = length labels -> labels ≠ [] ->
  in_unit_interval (accuracy_of logits labels).
Proof.
  intros Hlen Hlabels. unfold accuracy_of, in_unit_interval.
  apply mean_bounds; [|apply correct_entries].
  by destruct logits, labels.
Qed.

(** X9: the accuracy that [losses] returns is between 0 and 1, for a batch
    with at least one example and one row of logits per label. *)
Theorem losses_accuracy_unit (softmax_cross_entropy : array -> array -> vec)
    (Params OptState : Type) (infos : Type) (num_classes : nat)
    (p : Params) (state : TrainState Params OptState)
    (images : array) (labels : list nat) (inf : infos) :
  length (apply_fn _ _ state p images) = length labels -> labels ≠ [] ->
  in_unit_interval
    (losses softmax_cross_entropy Params OptState infos num_classes p state
       (images, labels, inf)).2.
Proof.
  intros Hlogits Hlabels. simpl. by apply accuracy_of_unit.
Qed.

Lemma losses_accuracy_unit_witness :
  in_unit_interval
    (losses toy_softmax_cross_entropy unit unit unit 2 tt
       {| apply_fn := fun _ => toy_model; params := tt; opt := tt |}
       ([[0; 1]; [one_half; 0]], [0; 1]%nat, tt)).2.
Proof.
  apply (losses_accuracy_unit toy_softmax_cross_entropy unit unit unit 2 tt
           {| apply_fn := fun _ => toy_model; params := tt; opt := tt |}
           [[0; 1]; [one_half; 0]] [0; 1]%nat tt).
  - reflexivity.
  - discriminate.
Defined.

(** X10: the mean accuracy left by the attack loop is between 0 and 1, when
    every batch has at least one example and the model returns one row of
    logits per label. *)
Theorem attack_mean_accuracy_unit softmax_cross_entropy grad model_apply
    (infos : Type) (cfg : config) (batches : list (batch infos)) :
  batches ≠ [] ->
  Forall (fun b =>
            b.1.2 ≠ []
            ∧ length (model_apply
                        (adv_inputs_of softmax_cross_entropy grad model_apply
                           infos cfg b))
              = length b.1.2) batches ->
  in_unit_interval
    (mean_new_accuracy
       (attack_loop softmax_cross_entropy grad model_apply infos cfg
          0 batches initial_state)).
Proof.
  intros Hne Hall.
  destruct (attack_loop_prefix softmax_cross_entropy grad model_apply infos cfg
              batches 0 initial_state Hne) as (n & Hn & ->).
  destruct (attack_steps_state softmax_cross_entropy grad model_apply infos cfg
              (take n batches) 0 initial_state) as (_ & _ & _ & ->).
  simpl. rewrite running_mean_is_mean.
  - apply mean_bounds.
    + destruct batches, n; simpl in *; try done; lia.
    + apply Forall_map. apply Forall_take with (n := n) in Hall.
      eapply Forall_impl; [exact Hall|].
      intros b [Hlabels Hlen]. by apply accuracy_of_unit.
  - destruct batches, n; simpl in *; try done; lia.
Qed.

Lemma attack_mean_accuracy_unit_witness :
  in_unit_interval
    (mean_new_accuracy
       (attack_loop toy_softmax_cross_entropy toy_grad toy_model unit
          unbounded_cfg 0 uneven_batches initial_state)).
Proof.
  apply (attack_mean_accuracy_unit toy_softmax_cross_entropy toy_grad toy_model
           unit unbounded_cfg uneven_batches).
  - discriminate.
  - repeat constructor; discriminate.
Defined.

(** ** The dataset of adversarial examples *)

(** X11: a negative index counts from the end of the stored array, not from the
    end of the first [num_examples] examples: with fewer examples requested
    than stored, [dataset[-1]] is a stored example outside the requested
    ones. *)
Theorem dataset_getitem_negative (self : AdversarialExampleDataset) (idx : Z) :
  (- Z.of_nat (length (examples self)) <= idx < 0)%Z ->
  (idx < ds_num_examples self)%Z ->
  exists x,
    examples self !! Z.to_nat (Z.of_nat (length (examples self)) + idx) = Some x
    ∧ dataset_getitem self idx = inr x.
Proof.
  intros Hidx Hnum. unfold dataset_getitem, py_getitem.
  repeat case_decide; try lia.
  destruct (lookup_lt_is_Some_2 (examples self)
              (Z.to_nat (Z.of_nat (length (examples self)) + idx))) as [x Hx]; [lia|].
  exists x. split; [done|].
  by rewrite (Z.add_comm idx), Hx.
Qed.

Lemma dataset_getitem_negative_witness :
  exists x,
    [[0; 1]; [one_half; 0]; [1; 1]] !! Z.to_nat (Z.of_nat 3 + -1) = Some x
    ∧ dataset_getitem
        {| examples := [[0; 1]; [one_half; 0]; [1; 1]]; ds_num_examples := 2 |}
        (-1) = inr x.
Proof.
  apply (dataset_getitem_negative
           {| examples := [[0; 1]; [one_half; 0]; [1; 1]]; ds_num_examples := 2 |}
           (-1)); simpl; lia.
Defined.

(** X12: when the file of adversarial examples exists the constructor neither
    runs the attack nor touches the files: its result does not depend on
    the subprocess. *)
Theorem dataset_init_with_stored_file (run_attack run_attack' : files -> option files)
    (fs : files) (num_examples : option Z) (stored : array) :
  adv_examples_file fs = Some stored ->
  dataset_init run_attack fs num_examples
  = dataset_init run_attack' fs num_examples
  ∧ (dataset_init run_attack fs num_examples).2 = fs
  ∧ (forall self, (dataset_init run_attack fs num_examples).1 = inr self ->
       examples self = stored).
Proof.
  intros Hfile. unfold dataset_init, load_or_attack, load_adv_examples.
  rewrite Hfile. split; [done|].
  case_decide; simpl; split; try done.
  by intros self [= <-].
Qed.

Lemma dataset_init_with_stored_file_witness :
  dataset_init failing_attack stored_files (Some 2%Z)
  = dataset_init Some stored_files (Some 2%Z)
  ∧ (dataset_init failing_attack stored_files (Some 2%Z)).2 = stored_files
  ∧ (forall self, (dataset_init failing_attack stored_files (Some 2%Z)).1 = inr self ->
       examples self = [[0; 1]; [one_half; 0]; [1; 1]]).
Proof.
  apply (dataset_init_with_stored_file failing_attack Some stored_files (Some 2%Z)).
  reflexivity.
Defined.


(** ** More on the sample transforms *)

Lemma CornerPixelToWhite_call_info_dict (self : CornerPixelToWhite) (rand : Qc)
    (img img' : Image) (target target' : Z) (info info' : info_dict) :
  CornerPixelToWhite_call self rand (img, target, info)
  = Some (img', target', info') ->
  info' !! "backdoored"%string = Some (InfoBool (bool_decide (rand <= p_backdoor self)))
  ∧ info' !! "original_img"%string
    = (if return_original self then Some (InfoImage img)
       else info !! "original_img"%string)
  ∧ (forall key, key ≠ "backdoored"%string -> key ≠ "original_img"%string ->
       info' !! key = info !! key).
Proof.
  unfold CornerPixelToWhite_call. case_decide as Hlt.
  - intros [= <- <- <-].
    rewrite bool_decide_eq_false_2 by (by apply Qclt_not_le).
    destruct (return_original self); repeat split;
      intros; simplify_map_eq; done.
  - destruct (size img) as [width height].
    destruct (match cp_corner self with
              | TopLeft => _ | TopRight => _ | BottomLeft => _ | BottomRight => _
              end) as [img0|]; [|discriminate].
    simpl. intros [= <- <- <-].
    rewrite bool_decide_eq_true_2 by (by apply Qcnot_lt_le).
    destruct (return_original self); repeat split;
      intros; simplify_map_eq; done.
Qed.

(** X14: whatever the branch, [CornerPixelToWhite] changes the info dict at
    [backdoored] and, with [return_original], at [original_img], where it
    stores the image as it was passed in; every other entry stays. *)
Theorem CornerPixelToWhite_call_info (self : CornerPixelToWhite) (rand : Qc)
    (img img' : Image) (target target' : Z) (info info' : info_dict) :
  CornerPixelToWhite_call self rand (img, target, info)
  = Some (img', target', info') ->
  info' !! "backdoored"%string = Some (InfoBool (bool_decide (rand <= p_backdoor self)))
  ∧ info' !! "original_img"%string
    = (if return_original self then Some (InfoImage img)
       else info !! "original_img"%string)
  ∧ (forall key, key ≠ "backdoored"%string -> key ≠ "original_img"%string ->
       info' !! key = info !! key).
Proof. apply CornerPixelToWhite_call_info_dict. Qed.

Lemma CornerPixelToWhite_call_info_witness :
  toy_info !! "backdoored"%string = None
  ∧ exists img' info',
      CornerPixelToWhite_call toy_backdoor one_tenth (toy_image, 5%Z, toy_info)
      = Some (img', 4%Z, info')
      ∧ info' !! "backdoored"%string
        = Some (InfoBool (bool_decide (one_tenth <= p_backdoor toy_backdoor)))
      ∧ info' !! "original_img"%string
        = (if return_original toy_backdoor then Some (InfoImage toy_image)
           else toy_info !! "original_img"%string)
      ∧ (forall key, key ≠ "backdoored"%string -> key ≠ "original_img"%string ->
           info' !! key = toy_info !! key).
Proof.
  split; [reflexivity|].
  eexists _, _. split; [reflexivity|].
  eapply (CornerPixelToWhite_call_info toy_backdoor one_tenth toy_image _ 5%Z).
  reflexivity.
Defined.

(** X15: [AddInfoDict] followed by [CornerPixelToWhite]: the info dict of the
    result still holds the target of the dataset under [original_target],
    also when the returned target is the target class of the backdoor; the
    returned target differs from it only on backdoored samples. *)
Theorem AddInfoDict_then_CornerPixelToWhite (self : CornerPixelToWhite)
    (rand : Qc) (img img' : Image) (target target' : Z) (info' : info_dict) :
  CornerPixelToWhite_call self rand (AddInfoDict_call (img, target))
  = Some (img', target', info') ->
  info' !! "original_target"%string = Some (InfoInt target)
  ∧ (info' !! "backdoored"%string = Some (InfoBool false) ->
     target' = target ∧ img' = img)
  ∧ (info' !! "backdoored"%string = Some (InfoBool true) ->
     target' = target_class self).
Proof.
  change (AddInfoDict_call (img, target))
    with (img, target,
          ({[ "original_target"%string := InfoInt target ]} : info_dict)).
  intros Hcall.
  destruct (CornerPixelToWhite_call_info_dict _ _ _ _ _ _ _ _ Hcall)
    as (Hflag & _ & Hframe).
  split; [by rewrite Hframe|].
  revert Hcall. unfold CornerPixelToWhite_call.
  destruct (decide (p_backdoor self < rand)) as [Hlt|Hlt].
  - intros [= <- <- <-]. split; [done|].
    intros Htrue. rewrite Hflag in Htrue.
    rewrite bool_decide_eq_false_2 in Htrue by (by apply Qclt_not_le). done.
  - destruct (size img) as [width height].
    destruct (match cp_corner self with
              | TopLeft => _ | TopRight => _ | BottomLeft => _ | BottomRight => _
              end) as [img0|]; [|discriminate].
    simpl. intros [= <- <- <-]. split; [|done].
    intros Hfalse. rewrite Hflag in Hfalse.
    rewrite bool_decide_eq_true_2 in Hfalse by (by apply Qcnot_lt_le). done.
Qed.

Lemma AddInfoDict_then_CornerPixelToWhite_witness :
  exists img' info',
    CornerPixelToWhite_call toy_backdoor one_tenth (AddInfoDict_call (toy_image, 5%Z))
    = Some (img', 4%Z, info')
    ∧ info' !! "original_target"%string = Some (InfoInt 5)
    ∧ (info' !! "backdoored"%string = Some (InfoBool false) ->
       4%Z = 5%Z ∧ img' = toy_image)
    ∧ (info' !! "backdoored"%string = Some (InfoBool true) ->
       4%Z = target_class toy_backdoor).
Proof.
  eexists _, _. split; [reflexivity|].
  eapply (AddInfoDict_then_CornerPixelToWhite toy_backdoor one_tenth toy_image _ 5%Z).
  reflexivity.
Defined.

(** A draw at most [p_backdoor] backdoors a sample whose image has a
    pixel. *)
Lemma CornerPixelToWhite_call_backdoored (self : CornerPixelToWhite) (rand : Qc)
    (img : Image) (target : Z) (info : info_dict) :
  (0 < (size img).1)%Z -> (0 < (size img).2)%Z ->
  rand <= p_backdoor self ->
  exists img' info',
    CornerPixelToWhite_call self rand (img, target, info)
    = Some (img', target_class self, info')
    ∧ info' !! "backdoored"%string = Some (InfoBool true).
Proof.
  intros Hw Hh Hle.
  rewrite CornerPixelToWhite_call_backdoor by done.
  destruct (corner_xy_inside (cp_corner self) (size img) Hw Hh) as [Hx Hy].
  destruct (corner_xy _ _) as [x y].
  destruct (putpixel_inside img x y 255 Hx Hy) as (img' & -> & _).
  simpl. eexists _, _. split; [done|].
  destruct (return_original self); by simplify_map_eq.
Qed.

(** X16: with [p_backdoor = 1] every draw of [torch.rand], a number below
    1, backdoors the sample. *)
Theorem CornerPixelToWhite_call_probability_one (self : CornerPixelToWhite)
    (rand : Qc) (img : Image) (target : Z) (info : info_dict) :
  (0 < (size img).1)%Z -> (0 < (size img).2)%Z ->
  rand < 1 ->
  p_backdoor self = 1 ->
  exists img' info',
    CornerPixelToWhite_call self rand (img, target, info)
    = Some (img', target_class self, info')
    ∧ info' !! "backdoored"%string = Some (InfoBool true).
Proof.
  intros Hw Hh Hrand Hp. apply CornerPixelToWhite_call_backdoored; try done.
  rewrite Hp. by apply Qclt_le_weak.
Qed.

Lemma CornerPixelToWhite_call_probability_one_witness :
  exists img' info',
    CornerPixelToWhite_call always_backdoor one_half (toy_image, 5%Z, toy_info)
    = Some (img', target_class always_backdoor, info')
    ∧ info' !! "backdoored"%string = Some (InfoBool true).
Proof.
  apply (CornerPixelToWhite_call_probability_one always_backdoor one_half
           toy_image 5 toy_info); reflexivity.
Defined.

(** X30: [p_backdoor = 0] does not switch the backdoor off altogether: the
    test is [rand > p_backdoor], so the sample is backdoored exactly when
    the draw is 0. *)
Theorem CornerPixelToWhite_call_probability_zero (self : CornerPixelToWhite)
    (rand : Qc) (img : Image) (target : Z) (info : info_dict) :
  (0 < (size img).1)%Z -> (0 < (size img).2)%Z ->
  0 <= rand ->
  p_backdoor self = 0 ->
  (exists img' info',
     CornerPixelToWhite_call self rand (img, target, info)
     = Some (img', target_class self, info')
     ∧ info' !! "backdoored"%string = Some (InfoBool true))
  <-> rand = 0.
Proof.
  intros Hw Hh Hrand Hp. split.
  - intros (img' & info' & Hcall & Hflag).
    destruct (CornerPixelToWhite_call_info_dict _ _ _ _ _ _ _ _ Hcall) as (Hflag' & _).
    rewrite Hflag in Hflag'. injection Hflag' as Hdec.
    symmetry in Hdec. apply bool_decide_eq_true in Hdec.
    rewrite Hp in Hdec. by apply Qcle_antisym.
  - intros ->. apply CornerPixelToWhite_call_backdoored; try done. by rewrite Hp.
Qed.

Lemma CornerPixelToWhite_call_probability_zero_witness :
  (exists img' info',
     CornerPixelToWhite_call never_backdoor 0 (toy_image, 5%Z, toy_info)
     = Some (img', target_class never_backdoor, info')
     ∧ info' !! "backdoored"%string = Some (InfoBool true))
  <-> Q2Qc 0 = 0.
Proof.
  apply (CornerPixelToWhite_call_probability_zero never_backdoor 0 toy_image 5
           toy_info); reflexivity || (vm_compute; discriminate).
Defined.

(** X17: on an image without pixels the backdoor branch fails in [putpixel],
    for every corner, while the other branch returns the sample. *)
Theorem CornerPixelToWhite_call_empty_image (self : CornerPixelToWhite)
    (rand : Qc) (img : Image) (target : Z) (info : info_dict) :
  (0 <= (size img).1)%Z -> (0 <= (size img).2)%Z ->
  ((size img).1 = 0 ∨ (size img).2 = 0)%Z ->
  (rand <= p_backdoor self ->
     CornerPixelToWhite_call self rand (img, target, info) = None)
  ∧ (p_backdoor self < rand ->
     exists info', CornerPixelToWhite_call self rand (img, target, info)
                   = Some (img, target, info')).
Proof.
  intros Hw Hh Hempty. split.
  - intros Hle. rewrite CornerPixelToWhite_call_backdoor by done.
    unfold putpixel. destruct (size img) as [width height]. simpl in *.
    destruct (cp_corner self); simpl; repeat case_decide; try done; lia.
  - intros Hlt. unfold CornerPixelToWhite_call. case_decide; [|done].
    by eexists.
Qed.

Lemma CornerPixelToWhite_call_empty_image_witness :
  (one_tenth <= p_backdoor toy_backdoor ->
     CornerPixelToWhite_call toy_backdoor one_tenth
       ({| size := (0, 2)%Z; pixels := ∅ |}, 5%Z, toy_info) = None)
  ∧ (p_backdoor toy_backdoor < one_tenth ->
     exists info', CornerPixelToWhite_call toy_backdoor one_tenth
                     ({| size := (0, 2)%Z; pixels := ∅ |}, 5%Z, toy_info)
                   = Some ({| size := (0, 2)%Z; pixels := ∅ |}, 5%Z, info')).
Proof.
  apply (CornerPixelToWhite_call_empty_image toy_backdoor one_tenth
           {| size := (0, 2)%Z; pixels := ∅ |} 5 toy_info); simpl; lia.
Defined.

(** ** [to_numpy] *)

(** The entry of [to_numpy img] for the pixel [(x, y)]: row [y], column
    [x], the pixel value over 255. *)
Lemma to_numpy_entry (img : Image) (x y : Z) :
  (0 <= x < (size img).1)%Z -> (0 <= y < (size img).2)%Z ->
  exists row, to_numpy img !! Z.to_nat y = Some row
    ∧ row !! Z.to_nat x = Some (Qc_of_Z (getpixel img (x, y)) / Qc_of_Z 255).
Proof.
  intros Hx Hy. unfold to_numpy. destruct (size img) as [width height].
  simpl in *. rewrite lookup_map, lookup_seq_lt by lia. simpl.
  eexists. split; [done|].
  rewrite lookup_map, lookup_seq_lt by lia. simpl.
  by rewrite !Z2Nat.id by lia.
Qed.

Lemma Qc_of_Z_255_ratio : Qc_of_Z 255 / Qc_of_Z 255 = 1.
Proof. apply Qc_is_canon. reflexivity. Qed.

(** X18: the array has one row per line of the image and one entry per pixel
    of the line; for pixel values from 0 to 255 its entries are colors. *)
Theorem to_numpy_shape_and_range (img : Image) :
  map_Forall (fun _ value => (0 <= value <= 255)%Z) (pixels img) ->
  length (to_numpy img) = Z.to_nat (size img).2
  ∧ rectangular (Z.to_nat (size img).1) (to_numpy img)
  ∧ Forall (Forall in_unit_interval) (to_numpy img).
Proof.
  intros Hpixels. unfold to_numpy. destruct (size img) as [width height]. simpl.
  split; [by rewrite length_map, length_seq|]. split.
  - apply Forall_map, Forall_true. intros y. by rewrite length_map, length_seq.
  - apply Forall_map, Forall_true. intros y.
    apply Forall_map, Forall_true. intros x.
    assert (0 <= getpixel img (Z.of_nat x, Z.of_nat y) <= 255)%Z as [Hlo Hhi].
    { unfold getpixel.
      destruct (pixels img !! (Z.of_nat x, Z.of_nat y)) as [v|] eqn:Hv; simpl; [|lia].
      by apply (Hpixels _ _ Hv). }
    apply (proj1 (Z2Qc_inj_le _ _)) in Hlo, Hhi.
    rewrite Z2Qc_inj_0 in Hlo.
    assert (Hpos : 0 < / Qc_of_Z 255) by (apply Qcinv_pos; reflexivity).
    unfold in_unit_interval, Qcdiv. split.
    + apply Qcmult_nonneg_nonneg; [done|by apply Qclt_le_weak].
    + rewrite <- Qc_of_Z_255_ratio. unfold Qcdiv.
      apply Qcmult_le_mono_nonneg_r; [by apply Qclt_le_weak|done].
Qed.

Lemma to_numpy_shape_and_range_witness :
  length (to_numpy toy_image) = Z.to_nat (size toy_image).2
  ∧ rectangular (Z.to_nat (size toy_image).1) (to_numpy toy_image)
  ∧ Forall (Forall in_unit_interval) (to_numpy toy_image).
Proof.
  apply (to_numpy_shape_and_range toy_image).
  unfold toy_image. simpl.
  apply map_Forall_insert_2; [lia|].
  apply map_Forall_insert_2; [lia|].
  apply map_Forall_empty.
Defined.

(** X19: the backdoor is what the model sees: after [to_numpy] the entry of the
    configured corner is 1, and every other entry is the entry of the
    image as it was. *)
Theorem backdoor_after_to_numpy (self : CornerPixelToWhite) (rand : Qc)
    (img : Image) (target : Z) (info : info_dict) :
  (0 < (size img).1)%Z -> (0 < (size img).2)%Z ->
  rand <= p_backdoor self ->
  let xy := corner_xy (cp_corner self) (size img) in
  exists img' info',
    CornerPixelToWhite_call self rand (img, target, info)
    = Some (img', target_class self, info')
    ∧ shape (to_numpy img') = shape (to_numpy img)
    ∧ (exists row, to_numpy img' !! Z.to_nat xy.2 = Some row
                   ∧ row !! Z.to_nat xy.1 = Some 1)
    ∧ (forall x y, (0 <= x < (size img).1)%Z -> (0 <= y < (size img).2)%Z ->
         (x, y) ≠ xy ->
         exists row row',
           to_numpy img !! Z.to_nat y = Some row
           ∧ to_numpy img' !! Z.to_nat y = Some row'
           ∧ row' !! Z.to_nat x = row !! Z.to_nat x).
Proof.
  intros Hw Hh Hle xy.
  rewrite CornerPixelToWhite_call_backdoor by done.
  destruct (corner_xy_inside (cp_corner self) (size img) Hw Hh) as [Hx Hy].
  fold xy in Hx, Hy |- *. destruct xy as [cx cy] eqn:Hxy. simpl in Hx, Hy.
  destruct (putpixel_inside img cx cy 255 Hx Hy) as (img' & -> & Hsz & Hget & Hframe).
  simpl. eexists _, _. split; [done|]. split; [|split].
  - unfold shape, to_numpy. rewrite Hsz. destruct (size img) as [width height].
    simpl. rewrite !length_map, !length_seq. f_equal.
    destruct (Z.to_nat height); [done|]. simpl.
    by rewrite !length_map, !length_seq.
  - rewrite <- Hsz in Hx, Hy.
    destruct (to_numpy_entry img' cx cy Hx Hy) as (row & Hrow & Hentry).
    exists row. split; [done|]. by rewrite Hentry, Hget, Qc_of_Z_255_ratio.
  - intros x y Hxr Hyr Hne.
    destruct (to_numpy_entry img x y Hxr Hyr) as (row & Hrow & Hentry).
    rewrite <- Hsz in Hxr, Hyr.
    destruct (to_numpy_entry img' x y Hxr Hyr) as (row' & Hrow' & Hentry').
    exists row, row'. split; [done|]. split; [done|].
    by rewrite Hentry, Hentry', Hframe.
Qed.

Lemma backdoor_after_to_numpy_witness :
  let xy := corner_xy (cp_corner toy_backdoor) (size toy_image) in
  exists img' info',
    CornerPixelToWhite_call toy_backdoor one_tenth (toy_image, 5%Z, toy_info)
    = Some (img', target_class toy_backdoor, info')
    ∧ shape (to_numpy img') = shape (to_numpy toy_image)
    ∧ (exists row, to_numpy img' !! Z.to_nat xy.2 = Some row
                   ∧ row !! Z.to_nat xy.1 = Some 1)
    ∧ (forall x y, (0 <= x < (size toy_image).1)%Z ->
         (0 <= y < (size toy_image).2)%Z ->
         (x, y) ≠ xy ->
         exists row row',
           to_numpy toy_image !! Z.to_nat y = Some row
           ∧ to_numpy img' !! Z.to_nat y = Some row'
           ∧ row' !! Z.to_nat x = row !! Z.to_nat x).
Proof.
  apply (backdoor_after_to_numpy toy_backdoor one_tenth toy_image 5 toy_info).
  - reflexivity.
  - reflexivity.
  - vm_compute. discriminate.
Defined.

(** ** [GaussianNoise] without noise, and its use of the generator *)

Lemma zip_with_plus_zero (row : vec) (f : nat -> Qc) (start : nat) :
  (forall j, f j = 0) ->
  zip_with Qcplus row (map f (seq start (length row))) = row.
Proof.
  intros Hf. revert start.
  induction row as [|x rest IH]; intros start; simpl; [done|].
  rewrite Hf, IH. f_equal. ring.
Qed.

Lemma add_zero_rows (img : array) (cols : nat) (f : nat -> nat -> Qc) (start : nat) :
  rectangular cols img -> (forall i j, f i j = 0) ->
  add img (map (fun i => map (f i) (seq 0 cols)) (seq start (length img))) = img.
Proof.
  intros Hrect Hf. unfold add. revert start.
  induction Hrect as [|row rest Hrow _ IH]; intros start; simpl; [done|].
  rewrite IH. f_equal. rewrite <- Hrow. by apply zip_with_plus_zero.
Qed.

(** X20: with [std = 0] the transform returns the sample as it came; it still
    takes one draw per entry from the generator. *)
Theorem GaussianNoise_call_zero_std (standard_normal : nat -> Qc)
    (self : GaussianNoise) (img : array) (target : Z) (info : info_dict)
    (pos : nat) :
  std self = 0 -> rectangular (last_dim img) img ->
  GaussianNoise_call standard_normal self (img, target, info) pos
  = Some ((img, target, info), (pos + length img * last_dim img)%nat).
Proof.
  intros Hstd Hrect. unfold GaussianNoise_call, normal, shape. rewrite Hstd.
  destruct (decide (0 < 0)) as [Hlt|_]; [done|]. simpl.
  rewrite add_zero_rows; [done|done|].
  intros i j. ring.
Qed.

Lemma GaussianNoise_call_zero_std_witness :
  GaussianNoise_call (fun k => Qc_of_nat k) {| std := 0 |}
    ([[0; 1]; [one_half; 0]], 5%Z, toy_info) 7
  = Some (([[0; 1]; [one_half; 0]], 5%Z, toy_info), (7 + 2 * 2)%nat).
Proof.
  apply (GaussianNoise_call_zero_std (fun k => Qc_of_nat k) {| std := 0 |}
           [[0; 1]; [one_half; 0]] 5 toy_info 7).
  - reflexivity.
  - repeat constructor.
Defined.

(** X21: for a standard deviation that is not negative and a rectangular
    image, the call returns, the generator moves on by the number of
    entries of the image, and the noise of each entry is [std] times a draw
    of its own: entry [(i, j)] receives draw number [pos + i * cols + j], so
    no draw is used for two entries, nor by two calls one after the other. *)
Theorem GaussianNoise_call_draws (standard_normal : nat -> Qc)
    (self : GaussianNoise) (img : array) (target : Z) (info : info_dict)
    (pos i j : nat) (row : vec) (x : Qc) :
  0 <= std self ->
  rectangular (last_dim img) img ->
  img !! i = Some row -> row !! j = Some x ->
  let cols := last_dim img in
  exists img' pos' row',
    GaussianNoise_call standard_normal self (img, target, info) pos
    = Some ((img', target, info), pos')
    ∧ pos' = (pos + length img * cols)%nat
    ∧ (pos <= pos + i * cols + j < pos')%nat
    ∧ (forall i' j', (j' < cols)%nat ->
         (pos + i' * cols + j' = pos + i * cols + j)%nat -> i' = i ∧ j' = j)
    ∧ img' !! i = Some row'
    ∧ row' !! j = Some (x + (0 + std self * standard_normal (pos + i * cols + j)%nat)).
Proof.
  intros Hstd Hrect Hrow Hx cols.
  assert (Hi : (i < length img)%nat) by (by eapply lookup_lt_Some).
  assert (Hj : (j < cols)%nat).
  { pose proof (lookup_lt_Some _ _ _ Hx) as Hlt.
    assert (length row = cols); [|lia].
    unfold rectangular in Hrect. rewrite Forall_forall in Hrect.
    apply Hrect. by eapply list_elem_of_lookup_2. }
  destruct (normal_shape standard_normal 0 (std self) (length img) cols pos Hstd)
    as (noise & Hnormal & _ & _).
  destruct (normal_entry standard_normal 0 (std self) (length img) cols pos _ i j
              noise Hnormal Hi Hj) as (nrow & Hnrow & Hentry).
  exists (add img noise), (pos + length img * cols)%nat, (zip_with Qcplus row nrow).
  unfold GaussianNoise_call, shape. fold cols. rewrite Hnormal. simpl.
  split; [done|]. split; [done|]. split; [nia|]. split.
  - intros i' j' Hj' Heq.
    assert (i' = i) as -> by nia. split; [done|lia].
  - unfold add. rewrite lookup_zip_with, Hrow, Hnrow. simpl. split; [done|].
    by rewrite lookup_zip_with, Hx, Hentry.
Qed.

Lemma GaussianNoise_call_draws_witness :
  let cols := last_dim [[0; 1]; [one_half; 0]] in
  exists img' pos' row',
    GaussianNoise_call (fun k => Qc_of_nat k) {| std := one_tenth |}
      ([[0; 1]; [one_half; 0]], 5%Z, toy_info) 7
    = Some ((img', 5%Z, toy_info), pos')
    ∧ pos' = (7 + 2 * cols)%nat
    ∧ (7 <= 7 + 1 * cols + 0 < pos')%nat
    ∧ (forall i' j', (j' < cols)%nat ->
         (7 + i' * cols + j' = 7 + 1 * cols + 0)%nat -> i' = 1%nat ∧ j' = 0%nat)
    ∧ img' !! 1%nat = Some row'
    ∧ row' !! 0%nat
      = Some (one_half + (0 + one_tenth * Qc_of_nat (7 + 1 * cols + 0)%nat)).
Proof.
  apply (GaussianNoise_call_draws (fun k => Qc_of_nat k) {| std := one_tenth |}
           [[0; 1]; [one_half; 0]] 5 toy_info 7 1 0 [one_half; 0] one_half).
  - vm_compute. discriminate.
  - repeat constructor.
  - reflexivity.
  - reflexivity.
Defined.

(** X29: a negative standard deviation passes the constructor, which
    stores its argument unchecked, and makes every call of the transform
    fail in [np.random.normal], before any draw is taken. *)
Theorem GaussianNoise_negative_std (standard_normal : nat -> Qc)
    (self : GaussianNoise) (sample : array * Z * info_dict) (pos : nat) :
  std self < 0 ->
  GaussianNoise_init {[ "std"%string := PyFloat (std self) ]}
  = Some {| attr_std := PyFloat (std self) |}
  ∧ GaussianNoise_call standard_normal self sample pos = None.
Proof.
  intros Hneg. split.
  - unfold GaussianNoise_init. rewrite dom_singleton_L, lookup_singleton_eq.
    by case_guard.
  - destruct sample as [[img target] info]. unfold GaussianNoise_call.
    by rewrite normal_negative_scale.
Qed.

Lemma GaussianNoise_negative_std_witness :
  GaussianNoise_init {[ "std"%string := PyFloat (- one_tenth) ]}
  = Some {| attr_std := PyFloat (- one_tenth) |}
  ∧ GaussianNoise_call (fun k => Qc_of_nat k) {| std := - one_tenth |}
      ([[0; 1]; [one_half; 0]], 5%Z, toy_info) 7 = None.
Proof.
  apply (GaussianNoise_negative_std (fun k => Qc_of_nat k)
           {| std := - one_tenth |} ([[0; 1]; [one_half; 0]], 5%Z, toy_info) 7).
  reflexivity.
Defined.

(** ** More on [get_transforms] *)

Section GetTransforms.

Variable NoiseBackdoor : Type.
Variable NoiseBackdoor_init : kwargs -> option NoiseBackdoor.
Variable config : gmap string (gmap string pyvalue).

Local Abbreviation transform := (transform_t NoiseBackdoor).

(** The list is put together from the contributions of the three table
    entries, in the order of the tables. *)
Lemma get_transforms_entries :
  get_transforms NoiseBackdoor NoiseBackdoor_init config
  = pil ← table_entry config "pixel_backdoor"
            (fun kw => TCornerPixelToWhite <$> CornerPixelToWhite_init kw);
    noise ← table_entry config "noise"
              (fun kw => TGaussianNoise <$> GaussianNoise_init kw);
    noise_backdoor ← table_entry config "noise_backdoor"
                       (fun kw => TNoiseBackdoor <$> NoiseBackdoor_init kw);
    Some ((TAddInfoDict : transform) :: pil ++ TToNumpy :: noise ++ noise_backdoor).
Proof.
  unfold get_transforms, process_all, PIL_TRANSFORMS, NP_TRANSFORMS, table_entry.
  simpl. rewrite process_transform_enabled.
  destruct (enabled_kwargs config "pixel_backdoor") as [kw1|]; simpl;
    [destruct (CornerPixelToWhite_init kw1) as [t1|]; simpl; [|done]|];
    rewrite process_transform_enabled;
    (destruct (enabled_kwargs config "noise") as [kw2|]; simpl;
     [destruct (GaussianNoise_init kw2) as [t2|]; simpl; [|done]|]);
    rewrite process_transform_enabled;
    (destruct (enabled_kwargs config "noise_backdoor") as [kw3|]; simpl;
     [destruct (NoiseBackdoor_init kw3) as [t3|]; simpl; [|done]|]);
    done.
Qed.

Lemma enabled_kwargs_switched_off (name : string) :
  switched_off config name <-> enabled_kwargs config name = None.
Proof.
  unfold switched_off, enabled_kwargs. split.
  - intros [-> | (c & v & -> & Hv & Hfalse)]; simpl; [done|].
    by rewrite Hv, Hfalse.
  - destruct (config !! name) as [c|]; simpl; [|by left].
    destruct (c !! "enabled"%string) as [v|] eqn:Hv; [|done].
    destruct (truthy v) eqn:Ht; [done|]. intros _. right. by exists c, v.
Qed.

Lemma enabled_kwargs_entry (name : string) (kw : kwargs) :
  enabled_kwargs config name = Some kw ->
  exists c, config !! name = Some c
    ∧ kw = delete "enabled"%string c
    ∧ (forall key, key ≠ "enabled"%string -> kw !! key = c !! key)
    ∧ ¬ switched_off config name.
Proof.
  intros Hsel.
  assert (Hon : ¬ switched_off config name).
  { rewrite enabled_kwargs_switched_off. by rewrite Hsel. }
  revert Hsel. unfold enabled_kwargs.
  destruct (config !! name) as [c|]; simpl; [|done].
  destruct (c !! "enabled"%string) as [v|] eqn:Hv.
  - destruct (truthy v); [|done]. intros [= <-]. exists c.
    split; [done|]. split; [done|]. split; [|done].
    intros key Hkey. by rewrite lookup_delete_ne.
  - intros [= <-]. exists c. split; [done|].
    split; [by rewrite delete_id|]. done.
Qed.

End GetTransforms.

(** What an accepted call of the constructor has stored. *)
Lemma CornerPixelToWhite_init_attrs (kw : kwargs) (t : CornerPixelToWhite_object) :
  CornerPixelToWhite_init kw = Some t ->
  kw !! "p_backdoor"%string = Some (attr_p_backdoor t)
  ∧ (exists p, as_number (attr_p_backdoor t) = Some p ∧ 0 <= p ∧ p <= 1)
  ∧ attr_corner t = default (PyStr "top-left") (kw !! "corner"%string)
  ∧ valid_corner (attr_corner t)
  ∧ attr_target_class t = default (PyInt 0) (kw !! "target_class"%string)
  ∧ attr_return_original t
    = default (PyBool false) (kw !! "return_original"%string).
Proof.
  unfold CornerPixelToWhite_init. intros Hinit.
  destruct (kw !! "p_backdoor"%string) as [v|]; simpl in Hinit;
    [|by repeat (case_guard; simpl in Hinit)].
  repeat (case_guard; simpl in Hinit);
    destruct (as_number v) as [p|] eqn:Hp; simpl in Hinit; try done;
    repeat (case_guard; simpl in Hinit); try done.
  injection Hinit as <-. simpl.
  split; [done|]. split; [exists p; tauto|]. done.
Qed.

Lemma GaussianNoise_init_std (kw : kwargs) (t : GaussianNoise_object) :
  GaussianNoise_init kw = Some t -> kw !! "std"%string = Some (attr_std t).
Proof.
  unfold GaussianNoise_init. intros Hinit.
  case_guard; [|done]. simpl in Hinit.
  destruct (kw !! "std"%string) as [v|]; [|done]. simpl in Hinit.
  by injection Hinit as <-.
Qed.



(** X23: with every transform off (no entry in the configuration, or an entry
    with a falsy [enabled], be it [False], [0], [None] or an empty string)
    the pipeline is [AddInfoDict] followed by the conversion, and no
    constructor is called. *)
Theorem get_transforms_all_off (NoiseBackdoor : Type)
    (NoiseBackdoor_init : kwargs -> option NoiseBackdoor)
    (config : gmap string (gmap string pyvalue)) :
  switched_off config "pixel_backdoor" ->
  switched_off config "noise" ->
  switched_off config "noise_backdoor" ->
  get_transforms NoiseBackdoor NoiseBackdoor_init config
  = Some [TAddInfoDict; TToNumpy].
Proof.
  intros H1 H2 H3. rewrite get_transforms_entries. unfold table_entry.
  apply enabled_kwargs_switched_off in H1, H2, H3.
  by rewrite H1, H2, H3.
Qed.

Lemma get_transforms_all_off_witness :
  get_transforms kwargs (fun _ => None)
    {[ "noise"%string := {[ "enabled"%string := PyInt 0 ]};
       "noise_backdoor"%string := {[ "enabled"%string := PyNone ]};
       "unrelated"%string := ∅ ]}
  = Some [TAddInfoDict; TToNumpy].
Proof.
  apply (get_transforms_all_off kwargs (fun _ => None)).
  - left. reflexivity.
  - right. eexists _, _. split; [reflexivity|]. split; reflexivity.
  - right. eexists _, _. split; [reflexivity|]. split; reflexivity.
Defined.

Lemma table_entry_elem {T} (config : gmap string (gmap string pyvalue))
    (name : string) (ctor : kwargs -> option T) (l : list T) (x : T) :
  table_entry config name ctor = Some l -> x ∈ l ->
  exists kw, enabled_kwargs config name = Some kw ∧ ctor kw = Some x.
Proof.
  unfold table_entry. destruct (enabled_kwargs config name) as [kw|].
  - destruct (ctor kw) as [t|] eqn:Hctor; simpl; [|done].
    intros [= <-] Hin. apply list_elem_of_singleton in Hin as ->. by exists kw.
  - intros [= <-] Hin. by apply not_elem_of_nil in Hin.
Qed.

Lemma get_transforms_parts (NoiseBackdoor : Type)
    (NoiseBackdoor_init : kwargs -> option NoiseBackdoor)
    (config : gmap string (gmap string pyvalue))
    (transforms : list (transform_t NoiseBackdoor)) :
  get_transforms NoiseBackdoor NoiseBackdoor_init config = Some transforms ->
  exists pil noise noise_backdoor,
    table_entry config "pixel_backdoor"
      (fun kw => TCornerPixelToWhite <$> CornerPixelToWhite_init kw) = Some pil
    ∧ table_entry config "noise"
        (fun kw => TGaussianNoise <$> GaussianNoise_init kw) = Some noise
    ∧ table_entry config "noise_backdoor"
        (fun kw => TNoiseBackdoor <$> NoiseBackdoor_init kw) = Some noise_backdoor
    ∧ transforms = TAddInfoDict :: pil ++ TToNumpy :: noise ++ noise_backdoor.
Proof.
  rewrite get_transforms_entries. intros Hget.
  repeat match type of Hget with
         | context [table_entry config ?name ?ctor] =>
             destruct (table_entry config name ctor); [|done]
         end.
  simpl in Hget. injection Hget as <-. by eexists _, _, _.
Qed.

(** X24: where the transforms of the returned list come from.  A pixel
    backdoor in the list is switched on in the configuration and holds the
    configured arguments, or the defaults of the constructor where the
    configuration has none; its probability is a number between 0 and 1 and
    its corner one of the four names.  A noise transform in the list is
    switched on and holds the configured [std], whatever it is. *)
Theorem get_transforms_provenance (NoiseBackdoor : Type)
    (NoiseBackdoor_init : kwargs -> option NoiseBackdoor)
    (config : gmap string (gmap string pyvalue))
    (transforms : list (transform_t NoiseBackdoor)) :
  get_transforms NoiseBackdoor NoiseBackdoor_init config = Some transforms ->
  (forall t, TCornerPixelToWhite t ∈ transforms ->
     ¬ switched_off config "pixel_backdoor"
     ∧ exists c, config !! "pixel_backdoor"%string = Some c
         ∧ c !! "p_backdoor"%string = Some (attr_p_backdoor t)
         ∧ (exists p, as_number (attr_p_backdoor t) = Some p ∧ 0 <= p ∧ p <= 1)
         ∧ attr_corner t = default (PyStr "top-left") (c !! "corner"%string)
         ∧ valid_corner (attr_corner t)
         ∧ attr_target_class t = default (PyInt 0) (c !! "target_class"%string)
         ∧ attr_return_original t
           = default (PyBool false) (c !! "return_original"%string))
  ∧ (forall t, TGaussianNoise t ∈ transforms ->
       ¬ switched_off config "noise"
       ∧ exists c, config !! "noise"%string = Some c
           ∧ c !! "std"%string = Some (attr_std t)).
Proof.
  intros Hget.
  destruct (get_transforms_parts _ _ _ _ Hget)
    as (pil & noise & nb & Hpil & Hnoise & Hnb & ->).
  assert (Hmem : forall x : transform_t NoiseBackdoor,
            x ∈ TAddInfoDict :: pil ++ TToNumpy :: noise ++ nb ->
            x = TAddInfoDict ∨ x = TToNumpy
            ∨ x ∈ pil ∨ x ∈ noise ∨ x ∈ nb).
  { intros x.
    rewrite elem_of_cons, elem_of_app, elem_of_cons, elem_of_app.
    tauto. }
  split; intros t Hin; apply Hmem in Hin;
    destruct Hin as [Hin | [Hin | [Hin | [Hin | Hin]]]]; try discriminate.
  - destruct (table_entry_elem _ _ _ _ _ Hpil Hin) as (kw & Hsel & Hctor).
    apply fmap_Some in Hctor as (t' & Hinit & [= <-]).
    destruct (CornerPixelToWhite_init_attrs kw t Hinit)
      as (Hp & Hrange & Hcorner & Hvalid & Htarget & Horiginal).
    destruct (enabled_kwargs_entry config "pixel_backdoor" kw Hsel)
      as (c & Hc & _ & Hkey & Hon).
    split; [done|]. exists c.
    rewrite <- !Hkey by done. tauto.
  - destruct (table_entry_elem _ _ _ _ _ Hnoise Hin) as (kw & _ & Hctor).
    by apply fmap_Some in Hctor as (t' & _ & [=]).
  - destruct (table_entry_elem _ _ _ _ _ Hnb Hin) as (kw & _ & Hctor).
    by apply fmap_Some in Hctor as (t' & _ & [=]).
  - destruct (table_entry_elem _ _ _ _ _ Hpil Hin) as (kw & _ & Hctor).
    by apply fmap_Some in Hctor as (t' & _ & [=]).
  - destruct (table_entry_elem _ _ _ _ _ Hnoise Hin) as (kw & Hsel & Hctor).
    apply fmap_Some in Hctor as (t' & Hinit & [= <-]).
    pose proof (GaussianNoise_init_std kw t Hinit) as Hstd.
    destruct (enabled_kwargs_entry config "noise" kw Hsel)
      as (c & Hc & _ & Hkey & Hon).
    split; [done|]. exists c. by rewrite <- Hkey.
  - destruct (table_entry_elem _ _ _ _ _ Hnb Hin) as (kw & _ & Hctor).
    by apply fmap_Some in Hctor as (t' & _ & [=]).
Qed.

Lemma get_transforms_provenance_witness :
  let transforms : list (transform_t kwargs) :=
    [ TAddInfoDict;
      TCornerPixelToWhite
        {| attr_p_backdoor := PyFloat one_half;
           attr_corner := PyStr "bottom-right";
           attr_target_class := PyInt 0;
           attr_return_original := PyBool false |};
      TToNumpy;
      TNoiseBackdoor ({[ "std"%string := PyFloat one_tenth ]} : kwargs) ] in
  (forall t, TCornerPixelToWhite t ∈ transforms ->
     ¬ switched_off toy_config "pixel_backdoor"
     ∧ exists c, toy_config !! "pixel_backdoor"%string = Some c
         ∧ c !! "p_backdoor"%string = Some (attr_p_backdoor t)
         ∧ (exists p, as_number (attr_p_backdoor t) = Some p ∧ 0 <= p ∧ p <= 1)
         ∧ attr_corner t = default (PyStr "top-left") (c !! "corner"%string)
         ∧ valid_corner (attr_corner t)
         ∧ attr_target_class t = default (PyInt 0) (c !! "target_class"%string)
         ∧ attr_return_original t
           = default (PyBool false) (c !! "return_original"%string))
  ∧ (forall t, TGaussianNoise t ∈ transforms ->
       ¬ switched_off toy_config "noise"
       ∧ exists c, toy_config !! "noise"%string = Some c
           ∧ c !! "std"%string = Some (attr_std t)).
Proof.
  apply (get_transforms_provenance kwargs Some toy_config).
  vm_compute. reflexivity.
Defined.

(** ** [CornerPixelToWhite] and the identity of images *)

Lemma copy_image_spec (store : gmap nat Image) (img : nat) (image : Image) :
  store !! img = Some image ->
  exists original,
    copy_image store img = Some (<[original := image]> store, original)
    ∧ store !! original = None ∧ original ≠ img.
Proof.
  intros Himg. unfold copy_image. rewrite Himg. simpl.
  exists (fresh (dom store)). split; [done|].
  assert (Hfresh : fresh (dom store) ∉ dom store) by apply is_fresh.
  split; [by apply not_elem_of_dom|].
  intros Heq. apply Hfresh. rewrite Heq. apply elem_of_dom. by eexists.
Qed.

Lemma CornerPixelToWhite_call_store_unfold (self : CornerPixelToWhite) (rand : Qc)
    (store : gmap nat Image) (img : nat) (image : Image) (target : Z)
    (info : gmap string info_ref) :
  store !! img = Some image ->
  rand <= p_backdoor self ->
  exists store1 info1,
    CornerPixelToWhite_call_store self rand store (img, target, info)
    = (image' ← putpixel image (corner_xy (cp_corner self) (size image)) 255;
       Some (<[img := image']> store1, (img, target_class self, info1)))
    ∧ store1 !! img = Some image
    ∧ (if return_original self
       then exists original,
              original ≠ img ∧ store !! original = None
              ∧ store1 = <[original := image]> store
              ∧ info1 = <["original_img"%string := RefImage original]>
                          (<["backdoored"%string := RefBool true]> info)
       else store1 = store
            ∧ info1 = <["backdoored"%string := RefBool true]> info).
Proof.
  intros Himg Hle. unfold CornerPixelToWhite_call_store.
  destruct (decide (p_backdoor self < rand)) as [Hlt|_];
    [by apply Qcle_not_lt in Hle|].
  destruct (return_original self).
  - destruct (copy_image_spec store img image Himg) as (original & -> & Hnew & Hne).
    simpl. rewrite lookup_insert_ne by done. rewrite Himg. simpl.
    eexists _, _. split; [|split; [by rewrite lookup_insert_ne|by exists original]].
    destruct (size image) as [width height].
    destruct (cp_corner self); unfold putpixel_at;
      rewrite lookup_insert_ne by done; rewrite Himg; simpl;
      by destruct (putpixel image _ 255).
  - simpl. rewrite Himg. simpl.
    eexists _, _. split; [|split; [done|done]].
    destruct (size image) as [width height].
    destruct (cp_corner self); unfold putpixel_at; rewrite Himg; simpl;
      by destruct (putpixel image _ 255).
Qed.

(** X25: the backdoor is written into the image object that was passed in: the
    returned sample holds the same address, and the object there now has
    the white corner.  With [return_original] the info dict points to a new
    object that has the contents from before the call; no other object of
    the store changes. *)
Theorem CornerPixelToWhite_call_store_backdoor (self : CornerPixelToWhite)
    (rand : Qc) (store : gmap nat Image) (img : nat) (image : Image)
    (target : Z) (info : gmap string info_ref) :
  store !! img = Some image ->
  (0 < (size image).1)%Z -> (0 < (size image).2)%Z ->
  rand <= p_backdoor self ->
  exists store' info' image',
    CornerPixelToWhite_call_store self rand store (img, target, info)
    = Some (store', (img, target_class self, info'))
    ∧ putpixel image (corner_xy (cp_corner self) (size image)) 255 = Some image'
    ∧ store' !! img = Some image'
    ∧ getpixel image' (corner_xy (cp_corner self) (size image)) = 255%Z
    ∧ (if return_original self
       then exists original,
              original ≠ img ∧ store !! original = None
              ∧ info' !! "original_img"%string = Some (RefImage original)
              ∧ store' !! original = Some image
              ∧ (forall a, a ≠ img -> a ≠ original -> store' !! a = store !! a)
       else info' !! "original_img"%string = info !! "original_img"%string
            ∧ (forall a, a ≠ img -> store' !! a = store !! a)).
Proof.
  intros Himg Hw Hh Hle.
  destruct (CornerPixelToWhite_call_store_unfold self rand store img image target
              info Himg Hle) as (store1 & info1 & -> & Himg1 & Hrest).
  destruct (corner_xy_inside (cp_corner self) (size image) Hw Hh) as [Hx Hy].
  destruct (corner_xy (cp_corner self) (size image)) as [x y] eqn:Hxy.
  destruct (putpixel_inside image x y 255 Hx Hy) as (image' & -> & _ & Hget & _).
  simpl. eexists _, _, _. split; [done|]. split; [done|].
  split; [by rewrite lookup_insert_eq|]. split; [done|].
  destruct (return_original self).
  - destruct Hrest as (original & Hne & Hnew & -> & ->).
    exists original. split; [done|]. split; [done|].
    split; [by rewrite lookup_insert_eq|].
    split; [by rewrite lookup_insert_ne, lookup_insert_eq|].
    intros a Ha1 Ha2. by rewrite !lookup_insert_ne.
  - destruct Hrest as (-> & ->).
    split; [by rewrite lookup_insert_ne|].
    intros a Ha. by rewrite lookup_insert_ne.
Qed.

Lemma CornerPixelToWhite_call_store_backdoor_witness :
  exists store' info' image',
    CornerPixelToWhite_call_store toy_backdoor one_tenth {[ 3%nat := toy_image ]}
      (3%nat, 5%Z, ∅)
    = Some (store', (3%nat, target_class toy_backdoor, info'))
    ∧ putpixel toy_image (corner_xy (cp_corner toy_backdoor) (size toy_image)) 255
      = Some image'
    ∧ store' !! 3%nat = Some image'
    ∧ getpixel image' (corner_xy (cp_corner toy_backdoor) (size toy_image)) = 255%Z
    ∧ (if return_original toy_backdoor
       then exists original,
              original ≠ 3%nat
              ∧ ({[ 3%nat := toy_image ]} : gmap nat Image) !! original = None
              ∧ info' !! "original_img"%string = Some (RefImage original)
              ∧ store' !! original = Some toy_image
              ∧ (forall a, a ≠ 3%nat -> a ≠ original ->
                   store' !! a = ({[ 3%nat := toy_image ]} : gmap nat Image) !! a)
       else info' !! "original_img"%string
            = (∅ : gmap string info_ref) !! "original_img"%string
            ∧ (forall a, a ≠ 3%nat ->
                 store' !! a = ({[ 3%nat := toy_image ]} : gmap nat Image) !! a)).
Proof.
  apply (CornerPixelToWhite_call_store_backdoor toy_backdoor one_tenth
           {[ 3%nat := toy_image ]} 3 toy_image 5 ∅).
  - reflexivity.
  - reflexivity.
  - reflexivity.
  - vm_compute. discriminate.
Defined.

(** X26: without the backdoor no object changes, and with [return_original]
    the info dict points to the very object that is returned, not to a
    copy. *)
Theorem CornerPixelToWhite_call_store_clean (self : CornerPixelToWhite)
    (rand : Qc) (store : gmap nat Image) (img : nat) (target : Z)
    (info : gmap string info_ref) :
  p_backdoor self < rand ->
  exists info',
    CornerPixelToWhite_call_store self rand store (img, target, info)
    = Some (store, (img, target, info'))
    ∧ info' !! "backdoored"%string = Some (RefBool false)
    ∧ info' !! "original_img"%string
      = (if return_original self then Some (RefImage img)
         else info !! "original_img"%string).
Proof.
  intros Hlt. unfold CornerPixelToWhite_call_store.
  destruct (decide (p_backdoor self < rand)); [|done].
  eexists. split; [done|].
  destruct (return_original self); split; by simplify_map_eq.
Qed.

Lemma CornerPixelToWhite_call_store_clean_witness :
  exists info',
    CornerPixelToWhite_call_store toy_backdoor 1 {[ 3%nat := toy_image ]}
      (3%nat, 5%Z, ∅)
    = Some ({[ 3%nat := toy_image ]}, (3%nat, 5%Z, info'))
    ∧ info' !! "backdoored"%string = Some (RefBool false)
    ∧ info' !! "original_img"%string
      = (if return_original toy_backdoor then Some (RefImage 3)
         else (∅ : gmap string info_ref) !! "original_img"%string).
Proof.
  apply (CornerPixelToWhite_call_store_clean toy_backdoor 1
           {[ 3%nat := toy_image ]} 3 5 ∅).
  vm_compute. reflexivity.
Defined.

(** X27: the two embeddings of [CornerPixelToWhite.__call__] agree: the call on
    the image object fails exactly when the call on the image value does,
    and otherwise returns the same target and leaves at the returned
    address the image that the call on values returns. *)
Theorem CornerPixelToWhite_call_store_agrees (self : CornerPixelToWhite)
    (rand : Qc) (store : gmap nat Image) (img : nat) (image : Image)
    (target : Z) (info : gmap string info_ref) (info_values : info_dict) :
  store !! img = Some image ->
  (fun r : gmap nat Image * (nat * Z * gmap string info_ref) =>
     (r.2.1.1, r.1 !! r.2.1.1, r.2.1.2))
    <$> CornerPixelToWhite_call_store self rand store (img, target, info)
  = (fun r : Image * Z * info_dict => (img, Some r.1.1, r.1.2))
      <$> CornerPixelToWhite_call self rand (image, target, info_values).
Proof.
  intros Himg. destruct (decide (p_backdoor self < rand)) as [Hlt|Hle].
  - unfold CornerPixelToWhite_call_store, CornerPixelToWhite_call.
    destruct (decide (p_backdoor self < rand)); [|done].
    simpl. by rewrite Himg.
  - apply Qcnot_lt_le in Hle.
    destruct (CornerPixelToWhite_call_store_unfold self rand store img image target
                info Himg Hle) as (store1 & info1 & -> & _).
    rewrite CornerPixelToWhite_call_backdoor by done.
    destruct (putpixel image _ 255) as [image'|]; simpl; [|done].
    by rewrite lookup_insert_eq.
Qed.

Lemma CornerPixelToWhite_call_store_agrees_witness :
  (fun r : gmap nat Image * (nat * Z * gmap string info_ref) =>
     (r.2.1.1, r.1 !! r.2.1.1, r.2.1.2))
    <$> CornerPixelToWhite_call_store toy_backdoor one_tenth
          {[ 3%nat := toy_image ]} (3%nat, 5%Z, ∅)
  = (fun r : Image * Z * info_dict => (3%nat, Some r.1.1, r.1.2))
      <$> CornerPixelToWhite_call toy_backdoor one_tenth (toy_image, 5%Z, toy_info).
Proof.
  apply (CornerPixelToWhite_call_store_agrees toy_backdoor one_tenth
           {[ 3%nat := toy_image ]} 3 toy_image 5 ∅ toy_info).
  reflexivity.
Defined.

(** ** The shape of the output of [fgsm] *)

Lemma zip_with_step_length (eps : Qc) (row grow : vec) :
  length row = length grow ->
  length (zip_with Qcplus row (map (Qcmult eps) (map sign1 grow))) = length row.
Proof. intros Hlen. rewrite length_zip_with, !length_map. lia. Qed.

Lemma zip_with_zero_step (row grow : vec) :
  length row = length grow ->
  zip_with Qcplus row (map (Qcmult 0) (map sign1 grow)) = row.
Proof.
  revert grow. induction row as [|x rest IH]; intros [|g grow] Hlen;
    simpl in *; try done.
  rewrite IH by lia. f_equal. ring.
Qed.

(** X28: for a gradient of the shape of the inputs, as jax returns it, the
    output of [fgsm] has the shape of the inputs, and with [eps = 0] it is
    the inputs themselves. *)
Theorem fgsm_shape softmax_cross_entropy grad forward_fn
    (inputs : array) (labels : list nat) (eps : Qc) :
  same_shape inputs (grad (fgsm_loss softmax_cross_entropy forward_fn labels) inputs) ->
  same_shape inputs (fgsm softmax_cross_entropy grad forward_fn inputs labels eps).1
  ∧ (eps = 0 ->
     (fgsm softmax_cross_entropy grad forward_fn inputs labels eps).1 = inputs).
Proof.
  rewrite fgsm_single_gradient_step_eq. cbn [fst].
  generalize (grad (fgsm_loss softmax_cross_entropy forward_fn labels) inputs).
  intros g Hshape. unfold same_shape, add, scale, sign in *. split.
  - induction Hshape as [|row grow rest grest Hlen _ IH]; simpl; constructor.
    + by rewrite zip_with_step_length.
    + exact IH.
  - intros ->.
    induction Hshape as [|row grow rest grest Hlen _ IH]; simpl; [done|].
    by rewrite IH, zip_with_zero_step.
Qed.

Lemma fgsm_shape_witness :
  same_shape [[1; 0]; [one_half; 1]]
    (fgsm toy_softmax_cross_entropy toy_grad toy_model [[1; 0]; [one_half; 1]]
       [0; 1]%nat 0).1
  ∧ (Q2Qc 0 = 0 ->
     (fgsm toy_softmax_cross_entropy toy_grad toy_model [[1; 0]; [one_half; 1]]
        [0; 1]%nat 0).1 = [[1; 0]; [one_half; 1]]).
Proof.
  apply (fgsm_shape toy_softmax_cross_entropy toy_grad toy_model
           [[1; 0]; [one_half; 1]] [0; 1]%nat 0).
  repeat constructor.
Defined.

(** ** The attack and its plotting block *)

(** When the plotting block runs through, [attack_with_plot] is [attack]. *)
Lemma attack_with_plot_succeeding softmax_cross_entropy grad model_apply
    (infos : Type) (cfg : config) (batches : list (batch infos)) (fs : files) :
  attack_with_plot softmax_cross_entropy grad model_apply infos cfg
    (fun _ => PlotDone) batches fs
  = let result := attack softmax_cross_entropy grad model_apply infos cfg batches fs in
    (Ended result.1, result.2).
Proof.
  unfold attack_with_plot, attack.
  destruct (adv_examples_file fs); [done|].
  case_decide; [done|]. by destruct (concatenate _).
Qed.

(** The constructor with a subprocess that leaves the files alone when it
    fails is [dataset_init]. *)
Lemma dataset_init_exit_option (run_attack : files -> option files)
    (fs : files) (num_examples : option Z) :
  dataset_init_exit
    (fun fs => match run_attack fs with
               | Some fs' => (true, fs')
               | None => (false, fs)
               end) fs num_examples
  = dataset_init run_attack fs num_examples.
Proof.
  unfold dataset_init_exit, dataset_init, load_or_attack_exit, load_or_attack.
  destruct (load_adv_examples fs); [|done].
  by destruct (run_attack fs).
Qed.

(** X3: the files change only when the attack reaches the save, and then the
    array and the statistics are both written, whether the plotting block
    after them runs through or fails.  The early return, the [RuntimeError]
    and the error of [jnp.concatenate] leave the files as they were, and the
    early return is taken exactly when the file of examples exists. *)
Theorem attack_with_plot_files softmax_cross_entropy grad model_apply
    (infos : Type) (cfg : config) (plot : array -> plot_end)
    (batches : list (batch infos)) (fs : files) :
  let result := attack_with_plot softmax_cross_entropy grad model_apply infos cfg
                  plot batches fs in
  (result.1 = Ended Finished ∨ result.1 = PlotError ∨ result.2 = fs)
  ∧ (result.1 = Ended Finished ∨ result.1 = PlotError ->
     adv_examples_file fs = None
     ∧ is_Some (adv_examples_file result.2)
     ∧ is_Some (adv_examples_json result.2))
  ∧ (result.1 = Ended Skipped <-> is_Some (adv_examples_file fs)).
Proof.
  unfold attack_with_plot. destruct (adv_examples_file fs) as [a|] eqn:Hfile; simpl.
  - split; [auto|]. split; [by intros [?|?]|]. split; [by eexists|done].
  - case_decide; simpl.
    + split; [auto|]. split; [by intros [?|?]|]. split; [done|by intros [? ?]].
    + destruct (concatenate _) as [saved|]; simpl.
      * destruct (plot saved) as [|pdf_created]; simpl.
        -- split; [auto|]. split; [by intros _; repeat split; eexists|].
           split; [done|by intros [? ?]].
        -- split; [auto|]. split; [by intros _; repeat split; eexists|].
           split; [done|by intros [? ?]].
      * split; [auto|]. split; [by intros [?|?]|].
        split; [done|by intros [? ?]].
Qed.

(** X5: how an attack that is not skipped ends: in the error of
    [jnp.concatenate] exactly when the loader yields no batch, in the
    [RuntimeError] exactly when the mean accuracy is above 0.1, and
    otherwise, after writing the files, normally or in the plotting block
    according to whether that block runs through. *)
Theorem attack_with_plot_outcome softmax_cross_entropy grad model_apply
    (infos : Type) (cfg : config) (plot : array -> plot_end)
    (batches : list (batch infos)) (fs : files) :
  adv_examples_file fs = None ->
  let st := attack_loop softmax_cross_entropy grad model_apply infos cfg
              0 batches initial_state in
  let saved := concat (adv_examples st) in
  let result := attack_with_plot softmax_cross_entropy grad model_apply infos cfg
                  plot batches fs in
  (result.1 = Ended ConcatenateError <-> batches = [])
  ∧ (result.1 = Ended (RuntimeError (mean_new_accuracy st))
     <-> one_tenth < mean_new_accuracy st)
  ∧ (result.1 = Ended Finished
     <-> batches ≠ [] ∧ mean_new_accuracy st <= one_tenth ∧ plot saved = PlotDone)
  ∧ (result.1 = PlotError
     <-> batches ≠ [] ∧ mean_new_accuracy st <= one_tenth ∧ plot saved ≠ PlotDone).
Proof.
  intros Hfile st saved result. subst result saved.
  unfold attack_with_plot. rewrite Hfile. fold st.
  pose proof (attack_loop_collects softmax_cross_entropy grad model_apply infos
                cfg batches) as Hcollect. fold st in Hcollect.
  destruct (decide (one_tenth < mean_new_accuracy st)) as [Hacc|Hacc]; simpl.
  - assert (batches ≠ []) as Hne.
    { intros ->. revert Hacc. subst st. vm_compute. discriminate. }
    split; [split; [done|by intros ?]|]. split; [done|].
    split; (split; [done|]); intros (_ & Hle & _); by apply Qcle_not_lt in Hle.
  - apply Qcnot_lt_le in Hacc.
    assert (Hnot : ¬ one_tenth < mean_new_accuracy st) by (by apply Qcle_not_lt).
    destruct (adv_examples st) as [|a rest] eqn:Hadv; simpl.
    + assert (batches = []) as -> by by apply Hcollect.
      split; [done|]. split; [split; [done|by intros ?]|].
      split; (split; [done|by intros [? _]]).
    + assert (batches ≠ []) as Hne.
      { intros Hnil. apply Hcollect in Hnil. done. }
      destruct (plot (a ++ concat rest)) as [|pdf_created] eqn:Hplot; simpl.
      * split; [split; [done|by intros ?]|].
        split; [split; [done|by intros ?]|].
        split; [done|]. split; [done|]. by intros (_ & _ & ?).
      * split; [split; [done|by intros ?]|].
        split; [split; [done|by intros ?]|].
        split; [|done]. split; [done|]. by intros (_ & _ & ?).
Qed.

Lemma attack_with_plot_outcome_witness :
  let st := attack_loop toy_softmax_cross_entropy toy_grad toy_model unit toy_cfg
              0 (toy_batches 1) initial_state in
  let saved := concat (adv_examples st) in
  let result := attack_with_plot toy_softmax_cross_entropy toy_grad toy_model unit
                  toy_cfg (fun _ => PlotRaises false) (toy_batches 1) no_files in
  (result.1 = Ended ConcatenateError <-> toy_batches 1 = [])
  ∧ (result.1 = Ended (RuntimeError (mean_new_accuracy st))
     <-> one_tenth < mean_new_accuracy st)
  ∧ (result.1 = Ended Finished
     <-> toy_batches 1 ≠ [] ∧ mean_new_accuracy st <= one_tenth
         ∧ PlotRaises false = PlotDone)
  ∧ (result.1 = PlotError
     <-> toy_batches 1 ≠ [] ∧ mean_new_accuracy st <= one_tenth
         ∧ PlotRaises false ≠ PlotDone).
Proof.
  apply (attack_with_plot_outcome toy_softmax_cross_entropy toy_grad toy_model
           unit toy_cfg (fun _ => PlotRaises false) (toy_batches 1) no_files).
  reflexivity.
Defined.

(** X13: without the file the constructor runs the attack, and the files are
    afterwards the ones the attack left.  When the attack runs to its end
    the dataset holds what the attack saved, all of it colors.  In every
    other case the constructor fails with [CalledProcessError]: with the
    files untouched when the attack failed before its save, and with the
    saved array in place when only the plotting block failed, so that the
    next construction loads that array without running the attack. *)
Theorem dataset_init_exit_runs_attack softmax_cross_entropy grad model_apply
    (infos : Type) (cfg : config) (plot : array -> plot_end)
    (batches : list (batch infos)) (fs : files) (num_examples : option Z) :
  adv_examples_file fs = None ->
  let attacked := attack_with_plot softmax_cross_entropy grad model_apply infos cfg
                    plot batches fs in
  let result :=
    dataset_init_exit
      (attack_process softmax_cross_entropy grad model_apply infos cfg plot batches)
      fs num_examples in
  result.2 = attacked.2
  ∧ (attacked.1 = Ended Finished ->
     exists saved,
       adv_examples_file result.2 = Some saved
       ∧ Forall (Forall in_unit_interval) saved
       ∧ (num_examples = None ->
          result.1 = inr {| examples := saved;
                            ds_num_examples := Z.of_nat (length saved) |})
       ∧ (forall self, result.1 = inr self -> examples self = saved))
  ∧ (attacked.1 ≠ Ended Finished -> result.1 = inl CalledProcessError)
  ∧ (attacked.1 ≠ Ended Finished -> attacked.1 ≠ PlotError -> result.2 = fs)
  ∧ (attacked.1 = PlotError ->
     exists saved,
       adv_examples_file result.2 = Some saved
       ∧ Forall (Forall in_unit_interval) saved
       ∧ forall run_attack,
           dataset_init_exit run_attack result.2 None
           = (inr {| examples := saved;
                     ds_num_examples := Z.of_nat (length saved) |}, result.2)).
Proof.
  intros Hfile attacked result. subst result attacked.
  unfold dataset_init_exit, load_or_attack_exit, load_adv_examples, attack_process.
  rewrite Hfile.
  pose proof (attack_loop_adv_examples softmax_cross_entropy grad model_apply
                infos cfg batches) as Hunit.
  unfold attack_with_plot. rewrite Hfile.
  case_decide; simpl; [by repeat split|].
  destruct (adv_examples _) as [|a rest] eqn:Hadv; simpl; [by repeat split|].
  assert (Forall (Forall in_unit_interval) (a ++ concat rest)) as Hsaved
    by by apply (Forall_concat_intro _ (a :: rest)).
  destruct (plot (a ++ concat rest)) as [|pdf_created]; simpl.
  - split; [by case_decide|]. split; [|by repeat split].
    intros _. eexists. split; [by case_decide|]. split; [done|]. split.
    + intros ->. case_decide; [lia|done].
    + intros self. case_decide; simpl; [done|]. by intros [= <-].
  - split; [done|]. split; [done|]. split; [done|]. split; [done|].
    intros _. eexists. split; [done|]. split; [done|].
    intros run_attack. case_decide; [lia|done].
Qed.

Lemma dataset_init_exit_runs_attack_witness :
  let attacked := attack_with_plot toy_softmax_cross_entropy toy_grad toy_model unit
                    toy_cfg (fun _ => PlotRaises false) (toy_batches 1) no_files in
  let result :=
    dataset_init_exit
      (attack_process toy_softmax_cross_entropy toy_grad toy_model unit toy_cfg
         (fun _ => PlotRaises false) (toy_batches 1))
      no_files None in
  result.2 = attacked.2
  ∧ (attacked.1 = Ended Finished ->
     exists saved,
       adv_examples_file result.2 = Some saved
       ∧ Forall (Forall in_unit_interval) saved
       ∧ (@None Z = None ->
          result.1 = inr {| examples := saved;
                            ds_num_examples := Z.of_nat (length saved) |})
       ∧ (forall self, result.1 = inr self -> examples self = saved))
  ∧ (attacked.1 ≠ Ended Finished -> result.1 = inl CalledProcessError)
  ∧ (attacked.1 ≠ Ended Finished -> attacked.1 ≠ PlotError -> result.2 = no_files)
  ∧ (attacked.1 = PlotError ->
     exists saved,
       adv_examples_file result.2 = Some saved
       ∧ Forall (Forall in_unit_interval) saved
       ∧ forall run_attack,
           dataset_init_exit run_attack result.2 None
           = (inr {| examples := saved;
                     ds_num_examples := Z.of_nat (length saved) |}, result.2)).
Proof.
  apply (dataset_init_exit_runs_attack toy_softmax_cross_entropy toy_grad toy_model
           unit toy_cfg (fun _ => PlotRaises false) (toy_batches 1) no_files None).
  reflexivity.
Defined.

(** The plotting block fails on the toy run, after the array is saved. *)
Example attack_with_plot_plot_error :
  let result := attack_with_plot toy_softmax_cross_entropy toy_grad toy_model unit
                  toy_cfg (fun _ => PlotRaises false) (toy_batches 1) no_files in
  result.1 = PlotError
  ∧ is_Some (adv_examples_file result.2)
  ∧ adv_examples_pdf result.2 = false.
Proof. vm_compute. repeat split. by eexists. Qed.
